(** * Medicines API: the CSV import pipeline and the query engine

    A shallow embedding of [db/index.ts] (the importer), [db/schema.ts]
    (the table and its insert schema) and [server.ts] (filter builder,
    pagination, distinct values, statistics), followed by the properties
    the specification states about them.

    Conventions.
    - A JavaScript string is a [string]: a sequence of code units, each
      below 256.  On that range [trim], [toLowerCase] and the three
      [replace] calls are modelled exactly; code units above 255 are not
      represented.
    - A plain-object dictionary is an association list of own properties;
      a bracket lookup also reaches the members inherited from
      [Object.prototype].
    - The store is an explicit table threaded through the effects; the
      file system, the CSV parser and store-level write failures are
      parameters of the importer. *)

From Stdlib Require Import List String Ascii Bool Arith ZArith Lia.
From Stdlib Require Import QArith Qround.
From Stdlib Require Import OrdersEx Sorted RelationClasses.
Import ListNotations.

Set Warnings "-register-all".

Local Close Scope Q_scope.
Local Open Scope string_scope.
Local Open Scope list_scope.
Local Open Scope nat_scope.

(* ================================================================== *)
(** ** JavaScript strings and objects *)

Module JS.

(** Code units that [String.prototype.trim] strips: TAB, LF, VT, FF,
    CR, SPACE and NO-BREAK SPACE. *)
Definition isWhiteSpace (c : ascii) : bool :=
  match nat_of_ascii c with
  | 9 | 10 | 11 | 12 | 13 | 32 | 160 => true
  | _ => false
  end.

Fixpoint all (p : ascii -> bool) (s : string) : bool :=
  match s with
  | EmptyString => true
  | String c s' => p c && all p s'
  end.

Fixpoint trimStart (s : string) : string :=
  match s with
  | EmptyString => EmptyString
  | String c s' => if isWhiteSpace c then trimStart s' else s
  end.

Fixpoint trimEnd (s : string) : string :=
  match s with
  | EmptyString => EmptyString
  | String c s' =>
      match trimEnd s' with
      | EmptyString => if isWhiteSpace c then EmptyString
                       else String c EmptyString
      | t => String c t
      end
  end.

Definition trim (s : string) : string := trimEnd (trimStart s).

Fixpoint map (f : ascii -> ascii) (s : string) : string :=
  match s with
  | EmptyString => EmptyString
  | String c s' => String (f c) (map f s')
  end.

Fixpoint remove (p : ascii -> bool) (s : string) : string :=
  match s with
  | EmptyString => EmptyString
  | String c s' => if p c then remove p s' else String c (remove p s')
  end.

Definition isLF (c : ascii) : bool := Ascii.eqb c "010".
Definition isSpace (c : ascii) : bool := Ascii.eqb c " ".

(** [s.replace(/\n/g, " ")] *)
Definition replaceNewlines (s : string) : string :=
  map (fun c => if isLF c then " "%char else c) s.

(** [s.replace(/ +/g, "_")]: a space that is followed by another space
    is dropped, the last space of a run becomes the underscore. *)
Fixpoint replaceSpaceRuns (s : string) : string :=
  match s with
  | EmptyString => EmptyString
  | String c s' =>
      if isSpace c then
        match s' with
        | String d _ =>
            if isSpace d then replaceSpaceRuns s'
            else String "_" (replaceSpaceRuns s')
        | EmptyString => String "_" EmptyString
        end
      else String c (replaceSpaceRuns s')
  end.

Definition isParenOrSlash (c : ascii) : bool :=
  Ascii.eqb c "(" || Ascii.eqb c ")" || Ascii.eqb c "/".

(** [s.replace(/[()\/]/g, "")] *)
Definition removeParens (s : string) : string := remove isParenOrSlash s.

(** [toLowerCase] on code units below 256: A-Z and the Latin-1
    capitals 0xC0-0xDE (0xD7, the multiplication sign, excepted) move
    up by 32. *)
Definition lowerChar (c : ascii) : ascii :=
  let n := nat_of_ascii c in
  if ((65 <=? n) && (n <=? 90))
     || ((192 <=? n) && (n <=? 222) && negb (n =? 215))
  then ascii_of_nat (n + 32) else c.

Definition toLowerCase (s : string) : string := map lowerChar s.

(** Truthiness of a string value: only the empty string is falsy. *)
Definition truthy (s : string) : bool :=
  match s with EmptyString => false | _ => true end.

(** The members every object literal inherits from [Object.prototype]. *)
Definition prototypeMembers : list string :=
  [ "constructor"; "__proto__"; "hasOwnProperty"; "isPrototypeOf";
    "propertyIsEnumerable"; "toLocaleString"; "toString"; "valueOf";
    "__defineGetter__"; "__defineSetter__"; "__lookupGetter__";
    "__lookupSetter__" ].

(** The result of [obj[key]] on an object literal: an own property, a
    member found on the prototype (a function or, for [__proto__], the
    prototype itself: truthy in both cases), or [undefined]. *)
Inductive prop (A : Type) : Type :=
| Own (a : A)
| Inherited (member : string)
| Undefined.
Arguments Own {A} a.
Arguments Inherited {A} member.
Arguments Undefined {A}.

Fixpoint ownProperty {A} (o : list (string * A)) (k : string) : option A :=
  match o with
  | [] => None
  | (k', v) :: o' => if String.eqb k' k then Some v else ownProperty o' k
  end.

Definition get {A} (o : list (string * A)) (k : string) : prop A :=
  match ownProperty o k with
  | Some v => Own v
  | None =>
      if existsb (String.eqb k) prototypeMembers then Inherited k
      else Undefined
  end.

(** [ToString] of an inherited member, as used when such a member
    becomes a property key.  The exact text of a native function is
    engine specific; what matters is that it is never a column name. *)
Definition memberToString (member : string) : string :=
  if String.eqb member "__proto__" then "[object Object]"
  else if String.eqb member "constructor"
       then "function Object() { [native code] }"
       else ("function " ++ member ++ "() { [native code] }")%string.

(** [o[k] = v] on an object used as a dictionary. *)
Fixpoint set {A} (o : list (string * A)) (k : string) (v : A)
  : list (string * A) :=
  match o with
  | [] => [(k, v)]
  | (k', v') :: o' =>
      if String.eqb k' k then (k', v) :: o' else (k', v') :: set o' k v
  end.

End JS.

(* ================================================================== *)
(** ** db/index.ts: header normalisation and the column dictionary *)

Definition csvToTableMapping : list (string * string) :=
  [ ("category", "category");
    ("name_of_medicine", "nameOfMedicine");
    ("ema_product_number", "emaProductNumber");
    ("medicine_status", "medicineStatus");
    ("opinion_status", "opinionStatus");
    ("latest_procedure_affecting_product_information", "latestProcedure");
    ("international_non-proprietary_name_inn__common_name", "inn");
    ("active_substance", "activeSubstance");
    ("therapeutic_area_mesh", "therapeuticArea");
    ("species_veterinary", "speciesVeterinary");
    ("patient_safety", "patientSafety");
    ("atc_code_human", "atcCodeHuman");
    ("atcvet_code_veterinary", "atcVetCode");
    ("pharmacotherapeutic_group_human", "pharmacotherapeuticGroupHuman");
    ("pharmacotherapeutic_group_veterinary", "pharmacotherapeuticGroupVet");
    ("therapeutic_indication", "therapeuticIndication");
    ("accelerated_assessment", "acceleratedAssessment");
    ("additional_monitoring", "additionalMonitoring");
    ("advanced_therapy", "advancedTherapy");
    ("biosimilar", "biosimilar");
    ("conditional_approval", "conditionalApproval");
    ("exceptional_circumstances", "exceptionalCircumstances");
    ("generic_or_hybrid", "genericOrHybrid");
    ("orphan_medicine", "orphanMedicine");
    ("prime:_priority_medicine", "primePriorityMedicine");
    ("marketing_authorisation_developer__applicant__holder",
      "marketingAuthorisationDeveloper");
    ("european_commission_decision_date", "commissionDecisionDate");
    ("start_of_rolling_review_date", "startRollingReviewDate");
    ("start_of_evaluation_date", "startEvaluationDate");
    ("opinion_adopted_date", "opinionAdoptedDate");
    ("withdrawal_of_application_date", "withdrawalApplicationDate");
    ("marketing_authorisation_date", "marketingAuthorisationDate");
    ("refusal_of_marketing_authorisation_date",
      "refusalMarketingAuthorisationDate");
    ("withdrawal__expiry__revocation__lapse_of_marketing_authorisation_date",
      "withdrawalExpiryRevocationDate");
    ("suspension_of_marketing_authorisation_date",
      "suspensionMarketingAuthorisationDate");
    ("revision_number", "revisionNumber");
    ("first_published_date", "firstPublishedDate");
    ("last_updated_date", "lastUpdatedDate");
    ("medicine_url", "medicineUrl") ].

Definition cleanHeader (raw : string) : string :=
  JS.toLowerCase
    (JS.removeParens
       (JS.replaceSpaceRuns
          (JS.replaceNewlines
             (JS.trim raw)))).

(* ================================================================== *)
(** ** db/schema.ts: the table and its insert schema *)

(** The text columns of [medicines], by property name, in declaration
    order.  The remaining column is the integer [id], primary key with
    AUTOINCREMENT. *)
Definition textColumns : list string :=
  [ "category"; "nameOfMedicine"; "emaProductNumber"; "medicineStatus";
    "opinionStatus"; "latestProcedure"; "inn"; "activeSubstance";
    "therapeuticArea"; "speciesVeterinary"; "patientSafety";
    "atcCodeHuman"; "atcVetCode"; "pharmacotherapeuticGroupHuman";
    "pharmacotherapeuticGroupVet"; "therapeuticIndication";
    "acceleratedAssessment"; "additionalMonitoring"; "advancedTherapy";
    "biosimilar"; "conditionalApproval"; "exceptionalCircumstances";
    "genericOrHybrid"; "orphanMedicine"; "primePriorityMedicine";
    "marketingAuthorisationDeveloper"; "commissionDecisionDate";
    "startRollingReviewDate"; "startEvaluationDate"; "opinionAdoptedDate";
    "withdrawalApplicationDate"; "marketingAuthorisationDate";
    "refusalMarketingAuthorisationDate"; "withdrawalExpiryRevocationDate";
    "suspensionMarketingAuthorisationDate"; "revisionNumber";
    "firstPublishedDate"; "lastUpdatedDate"; "medicineUrl" ].

(** Values an object handed to the schema can hold. *)
Inductive value : Type :=
| VNull
| VStr (s : string)
| VNum (n : Z).

Definition InsertObj : Type := list (string * value).

(** A stored row: the identity and every text column, NULL as [None]. *)
Record Medicine : Type := mkMedicine {
  id : Z;
  fields : list (string * option string)
}.

Definition field (r : Medicine) (column : string) : option string :=
  match JS.ownProperty (fields r) column with
  | Some v => v
  | None => None
  end.

(** [createInsertSchema(medicines)]: every text column is nullable and
    has no default, so it accepts a string, null or absence; [id] is
    NOT NULL with a default, so it accepts an integer or absence.  Keys
    outside the table are stripped.  [None] stands for the thrown
    ZodError. *)
Definition textFieldOk (o : InsertObj) (column : string) : bool :=
  match JS.ownProperty o column with
  | None | Some VNull | Some (VStr _) => true
  | Some (VNum _) => false
  end.

Definition idFieldOk (o : InsertObj) : bool :=
  match JS.ownProperty o "id" with
  | None | Some (VNum _) => true
  | Some VNull | Some (VStr _) => false
  end.

Definition pick (o : InsertObj) (key : string) : InsertObj :=
  match JS.ownProperty o key with
  | Some v => [(key, v)]
  | None => []
  end.

Definition insertMedicineSchema_parse (o : InsertObj) : option InsertObj :=
  if idFieldOk o && forallb (textFieldOk o) textColumns
  then Some (flat_map (pick o) ("id" :: textColumns))
  else None.

(* ================================================================== *)
(** ** The store *)

(** The table in rowid order, and the largest identity handed out so
    far (SQLite's [sqlite_sequence] entry for an AUTOINCREMENT key). *)
Record Database : Type := mkDatabase {
  rows : list Medicine;
  sequence : Z
}.

Definition textOf (v : option value) : option string :=
  match v with
  | Some (VStr s) => Some s
  | _ => None
  end.

(** The row [db.insert(medicines).values(validated)] writes: a column
    the object does not mention is written as NULL, a missing [id] is
    taken from the sequence. *)
Definition rowOf (d : Database) (validated : InsertObj) : Medicine :=
  {| id := match JS.ownProperty validated "id" with
           | Some (VNum n) => n
           | _ => (sequence d + 1)%Z
           end;
     fields := List.map (fun c => (c, textOf (JS.ownProperty validated c)))
                        textColumns |}.

Definition idTaken (d : Database) (i : Z) : bool :=
  existsb (fun r => Z.eqb (id r) i) (rows d).

(* ================================================================== *)
(** ** Effects *)

Inductive Exit (E A : Type) : Type :=
| Failure (e : E)
| Success (a : A).
Arguments Failure {E A} e.
Arguments Success {E A} a.

(** A CSV record: header text and cell text, in column order. *)
Definition RawRow : Type := list (string * string).

Inductive ImportError : Type :=
| CSVReadError
| CSVParseError.

Inductive RowError : Type :=
| ValidationError (rowData : RawRow)
| DatabaseInsertError (rowData : RawRow).

(** What the importer writes to the console, one constructor per
    message template. *)
Inductive ConsoleLine : Type :=
| LogReading (filename : string)
| LogParsing
| LogProcessing (records : nat)
| LogComplete (inserted failed : nat)
| LogErrorsHeader
| LogError (e : RowError)
| LogMore (remaining : nat).

Record World : Type := mkWorld {
  db : Database;
  console : list ConsoleLine
}.

Definition Effect (E A : Type) : Type := World -> Exit E A * World.

Module Effect.

Definition succeed {E A} (a : A) : Effect E A := fun w => (Success a, w).

Definition fail {E A} (e : E) : Effect E A := fun w => (Failure e, w).

Definition flatMap {E A B} (m : Effect E A) (k : A -> Effect E B)
  : Effect E B :=
  fun w => match m w with
           | (Success a, w') => k a w'
           | (Failure e, w') => (Failure e, w')
           end.

Definition map {E A B} (f : A -> B) (m : Effect E A) : Effect E B :=
  flatMap m (fun a => succeed (f a)).

Definition catchAll {E E' A} (m : Effect E A) (h : E -> Effect E' A)
  : Effect E' A :=
  fun w => match m w with
           | (Success a, w') => (Success a, w')
           | (Failure e, w') => h e w'
           end.

(** [Effect.forEach]: the results come back in the order of the
    input; the first failure stops the traversal.  The rows are run
    one after the other. *)
Fixpoint forEach {E A B} (l : list A) (f : A -> Effect E B)
  : Effect E (list B) :=
  match l with
  | [] => succeed []
  | a :: l' =>
      flatMap (f a) (fun b =>
      flatMap (forEach l' f) (fun bs => succeed (b :: bs)))
  end.

Definition log {E} (line : ConsoleLine) : Effect E unit :=
  fun w => (Success tt, {| db := db w; console := console w ++ [line] |}).

Definition when {E} (b : bool) (m : Effect E unit) : Effect E unit :=
  if b then m else succeed tt.

End Effect.

Notation "x <- m ;; k" := (Effect.flatMap m (fun x => k))
  (at level 61, m at next level, right associativity).
Notation "m ;;; k" := (Effect.flatMap m (fun _ => k))
  (at level 61, right associativity).

(* ================================================================== *)
(** ** db/index.ts: the importer *)

Record RowResult : Type := mkRowResult {
  success : bool;
  error : option RowError
}.

Record ImportOutcome : Type := mkOutcome {
  successCount : nat;
  errorCount : nat;
  errors : list RowError
}.

Definition cellValue (rawVal : string) : value :=
  if String.eqb rawVal "" then VNull else VStr rawVal.

(** One turn of the loop of [transformRow].  A header that hits a
    member inherited by the dictionary is truthy too and is stored
    under that member's string form. *)
Definition transformCell (insertObj : InsertObj) (cell : string * string)
  : InsertObj :=
  let (rawKey, rawVal) := cell in
  match JS.get csvToTableMapping (cleanHeader rawKey) with
  | JS.Own tableColumn => JS.set insertObj tableColumn (cellValue rawVal)
  | JS.Inherited m => JS.set insertObj (JS.memberToString m) (cellValue rawVal)
  | JS.Undefined => insertObj
  end.

Definition transformRow (row : RawRow) : InsertObj :=
  fold_left transformCell row [].

Section Importer.

(** [Bun.file(filename).text()]: the text, or [None] when the read
    is rejected. *)
Variable readText : string -> option string.

(** [parse(content, {columns: true, ...})]: the records, or [None]
    when the parser throws. *)
Variable parse : string -> option (list RawRow).

(** A write the store turns down for a reason of its own (read-only
    file, full disk, lock). *)
Variable rejects : Database -> InsertObj -> bool.

Definition readCSVFile (filename : string) : Effect ImportError string :=
  match readText filename with
  | Some content => Effect.succeed content
  | None => Effect.fail CSVReadError
  end.

Definition parseCSV (content : string) : Effect ImportError (list RawRow) :=
  match parse content with
  | Some records => Effect.succeed records
  | None => Effect.fail CSVParseError
  end.

Definition validateRow (insertObj : InsertObj) (originalRow : RawRow)
  : Effect RowError InsertObj :=
  match insertMedicineSchema_parse insertObj with
  | Some validated => Effect.succeed validated
  | None => Effect.fail (ValidationError originalRow)
  end.

Definition insertRow (validated : InsertObj) (originalRow : RawRow)
  : Effect RowError unit :=
  fun w =>
    let d := db w in
    let r := rowOf d validated in
    if rejects d validated || idTaken d (id r)
    then (Failure (DatabaseInsertError originalRow), w)
    else (Success tt,
          {| db := {| rows := rows d ++ [r];
                      sequence := Z.max (sequence d) (id r) |};
             console := console w |}).

Definition processRow (row : RawRow) : Effect RowError unit :=
  transformed <- Effect.succeed (transformRow row) ;;
  validated <- validateRow transformed row ;;
  insertRow validated row ;;;
  Effect.succeed tt.

Definition attempt {E} (row : RawRow) : Effect E RowResult :=
  Effect.catchAll
    (Effect.map (fun _ => {| success := true; error := None |})
                (processRow row))
    (fun e => Effect.succeed {| success := false; error := Some e |}).

Definition errorsOf (results : list RowResult) : list RowError :=
  flat_map (fun e => match e with Some e' => [e'] | None => [] end)
           (List.map error
              (filter (fun r => negb (success r)) results)).

Definition processAllRows {E} (records : list RawRow)
  : Effect E ImportOutcome :=
  results <- Effect.forEach records attempt ;;
  Effect.succeed
    {| successCount := List.length (filter success results);
       errorCount := List.length (filter (fun r => negb (success r)) results);
       errors := errorsOf results |}.

Definition importCSV (filename : string) : Effect ImportError ImportOutcome :=
  Effect.log (LogReading filename) ;;;
  content <- readCSVFile filename ;;
  Effect.log LogParsing ;;;
  records <- parseCSV content ;;
  Effect.log (LogProcessing (List.length records)) ;;;
  result <- processAllRows records ;;
  Effect.log (LogComplete (successCount result) (errorCount result)) ;;;
  Effect.when (0 <? List.length (errors result))
    (Effect.log LogErrorsHeader ;;;
     Effect.forEach (firstn 5 (errors result))
                    (fun e => Effect.log (LogError e)) ;;;
     Effect.when (5 <? List.length (errors result))
       (Effect.log (LogMore (List.length (errors result) - 5)))) ;;;
  Effect.succeed result.

End Importer.

(** The rows of a batch, taken one at a time: [batch w records s f w']
    says that running the records from [w] leaves [w'] with [s] rows
    accepted and [f] rows failed. *)
Inductive batch (rejects : Database -> InsertObj -> bool)
  : World -> list RawRow -> nat -> nat -> World -> Prop :=
| batch_done w : batch rejects w [] 0 0 w
| batch_accepted w w1 w' row rest s f :
    processRow rejects row w = (Success tt, w1) ->
    batch rejects w1 rest s f w' ->
    batch rejects w (row :: rest) (S s) f w'
| batch_failed w w1 w' row rest s f e :
    processRow rejects row w = (Failure e, w1) ->
    batch rejects w1 rest s f w' ->
    batch rejects w (row :: rest) s (S f) w'.

(* ================================================================== *)
(** ** The store's text operators *)

Module SQLite.

(** LIKE folds the case of ASCII letters only. *)
Definition foldCase (c : ascii) : ascii :=
  let n := nat_of_ascii c in
  if (65 <=? n) && (n <=? 90) then ascii_of_nat (n + 32) else c.

Definition sameNoCase (c d : ascii) : bool :=
  Ascii.eqb (foldCase c) (foldCase d).

(** [text LIKE pattern]: [%] stands for any run of characters, [_]
    for exactly one, any other character for itself up to ASCII
    case.  There is no escape character. *)
Fixpoint like (pattern : string) : string -> bool :=
  match pattern with
  | EmptyString =>
      fun text => match text with EmptyString => true | _ => false end
  | String p pattern' =>
      if Ascii.eqb p "%" then
        fix skip (text : string) : bool :=
          like pattern' text
          || match text with
             | EmptyString => false
             | String _ text' => skip text'
             end
      else if Ascii.eqb p "_" then
        fun text => match text with
                    | EmptyString => false
                    | String _ text' => like pattern' text'
                    end
      else
        fun text => match text with
                    | EmptyString => false
                    | String c text' => sameNoCase p c && like pattern' text'
                    end
  end.

(** Text comparison under the BINARY collation. *)
Definition ge (a b : string) : bool :=
  match String_as_OT.compare a b with Lt => false | _ => true end.

Definition le (a b : string) : bool :=
  match String_as_OT.compare a b with Gt => false | _ => true end.

(** Three-valued connectives; [None] is NULL. *)
Definition and3 (a b : option bool) : option bool :=
  match a, b with
  | Some false, _ | _, Some false => Some false
  | Some true, Some true => Some true
  | _, _ => None
  end.

Definition or3 (a b : option bool) : option bool :=
  match a, b with
  | Some true, _ | _, Some true => Some true
  | Some false, Some false => Some false
  | _, _ => None
  end.

Definition isTrue (a : option bool) : bool :=
  match a with Some true => true | _ => false end.

(** ORDER BY over DISTINCT text values: insertion into a strictly
    increasing list. *)
Fixpoint insertDistinct (x : string) (l : list string) : list string :=
  match l with
  | [] => [x]
  | y :: l' =>
      match String_as_OT.compare x y with
      | Lt => x :: l
      | Eq => l
      | Gt => y :: insertDistinct x l'
      end
  end.

Definition orderedDistinct (l : list string) : list string :=
  fold_right insertDistinct [] l.

End SQLite.

(* ================================================================== *)
(** ** server.ts: the filter builder *)

Inductive DatabaseError : Type := mkDatabaseError.

(** Property name of [medicines] each query field stands for. *)
Definition fieldMapping : list (string * string) :=
  List.map (fun c => (c, c)) textColumns.

Definition reservedParams : list string :=
  [ "page"; "pageSize"; "search";
    "marketingAuthorisationDateFrom"; "marketingAuthorisationDateTo";
    "lastUpdatedDateFrom"; "lastUpdatedDateTo" ].

Definition isReserved (key : string) : bool :=
  existsb (String.eqb key) reservedParams.

(** What [like] is handed as its left operand: a column of the table
    or, when the lookup in [fieldMapping] hit an inherited member,
    that member. *)
Inductive Operand : Type :=
| Column (name : string)
| Foreign (member : string).

Inductive SQL : Type :=
| Like (operand : Operand) (pattern : string)
| Ge (column bound : string)
| Le (column bound : string)
| Or (conditions : list SQL)
| And (conditions : list SQL).

(** The string-valued entries of the query object, in enumeration
    order.  The numeric [page] and [pageSize] are kept apart: both
    names are reserved, so the builder skips them whatever they hold. *)
Definition QueryParams : Type := list (string * string).

Definition param (queryParams : QueryParams) (name : string) : string :=
  match JS.ownProperty queryParams name with
  | Some v => v
  | None => EmptyString
  end.

Definition fieldCondition (entry : string * string) : list SQL :=
  let (key, v) := entry in
  if isReserved key || negb (JS.truthy v) then []
  else match JS.get fieldMapping key with
       | JS.Own column => [Like (Column column) ("%" ++ v ++ "%")]
       | JS.Inherited m => [Like (Foreign m) ("%" ++ v ++ "%")]
       | JS.Undefined => []
       end.

Definition dateCondition (queryParams : QueryParams) (name : string)
  (make : string -> SQL) : list SQL :=
  if JS.truthy (param queryParams name)
  then [make (param queryParams name)] else [].

Definition searchCondition (queryParams : QueryParams) : list SQL :=
  if JS.truthy (param queryParams "search") then
    let searchTerm := ("%" ++ param queryParams "search" ++ "%")%string in
    [Or [ Like (Column "nameOfMedicine") searchTerm;
          Like (Column "inn") searchTerm;
          Like (Column "activeSubstance") searchTerm;
          Like (Column "therapeuticArea") searchTerm;
          Like (Column "therapeuticIndication") searchTerm;
          Like (Column "marketingAuthorisationDeveloper") searchTerm;
          Like (Column "emaProductNumber") searchTerm ]]
  else [].

Definition conditionsOf (queryParams : QueryParams) : list SQL :=
  flat_map fieldCondition queryParams
  ++ dateCondition queryParams "marketingAuthorisationDateFrom"
       (Ge "marketingAuthorisationDate")
  ++ dateCondition queryParams "marketingAuthorisationDateTo"
       (Le "marketingAuthorisationDate")
  ++ dateCondition queryParams "lastUpdatedDateFrom" (Ge "lastUpdatedDate")
  ++ dateCondition queryParams "lastUpdatedDateTo" (Le "lastUpdatedDate")
  ++ searchCondition queryParams.

(** [None] is [undefined]: no WHERE at all. *)
Definition buildWhereClause (queryParams : QueryParams) : option SQL :=
  match conditionsOf queryParams with
  | [] => None
  | conditions => Some (And conditions)
  end.

(* ================================================================== *)
(** ** server.ts: running a query *)

Fixpoint eval (r : Medicine) (e : SQL) : option bool :=
  match e with
  | Like (Column c) pattern => option_map (SQLite.like pattern) (field r c)
  | Like (Foreign _) _ => None
  | Ge c bound => option_map (fun v => SQLite.ge v bound) (field r c)
  | Le c bound => option_map (fun v => SQLite.le v bound) (field r c)
  | Or l => fold_right (fun e' acc => SQLite.or3 (eval r e') acc) (Some false) l
  | And l => fold_right (fun e' acc => SQLite.and3 (eval r e') acc) (Some true) l
  end.

(** A statement can be run only if every operand is a column: the
    driver has no binding for a function or a plain object. *)
Fixpoint bindable (e : SQL) : bool :=
  match e with
  | Like (Column _) _ => true
  | Like (Foreign _) _ => false
  | Ge _ _ | Le _ _ => true
  | Or l | And l => forallb bindable l
  end.

Definition keeps (whereClause : option SQL) (r : Medicine) : bool :=
  match whereClause with
  | None => true
  | Some e => SQLite.isTrue (eval r e)
  end.

Definition runnable (whereClause : option SQL) : bool :=
  match whereClause with
  | None => true
  | Some e => bindable e
  end.

Definition getTotalCount (d : Database) (whereClause : option SQL)
  : Exit DatabaseError Z :=
  if runnable whereClause
  then Success (Z.of_nat (List.length (filter (keeps whereClause) (rows d))))
  else Failure mkDatabaseError.

(** LIMIT and OFFSET as the store reads them: a negative offset is no
    offset, a negative limit is no limit. *)
Definition limit (n : Z) {A} (l : list A) : list A :=
  if (n <? 0)%Z then l else firstn (Z.to_nat n) l.

Definition offset (n : Z) {A} (l : list A) : list A := skipn (Z.to_nat n) l.

Definition getPaginatedData (d : Database) (whereClause : option SQL)
  (page pageSize : Z) : Exit DatabaseError (list Medicine) :=
  let offset_ := ((page - 1) * pageSize)%Z in
  if runnable whereClause
  then Success (limit pageSize
                  (offset offset_ (filter (keeps whereClause) (rows d))))
  else Failure mkDatabaseError.

Record HTTPError : Type := mkHTTPError {
  status : nat;
  message : string
}.

Record Query : Type := mkQuery {
  query_page : option Z;
  query_pageSize : option Z;
  query_params : QueryParams
}.

Record Pagination : Type := mkPagination {
  page : Z;
  pageSize : Z;
  totalRecords : Z;
  totalPages : Z;
  hasNextPage : bool;
  hasPreviousPage : bool
}.

Record MedicinesPage : Type := mkMedicinesPage {
  data : list Medicine;
  pagination : Pagination
}.

(** [Math.ceil(total / pageSize)], the quotient taken exactly. *)
Definition ceilOfQuotient (total pageSize : Z) : Z :=
  Qceiling (inject_Z total / inject_Z pageSize)%Q.

Definition paginate (page_ pageSize_ total : Z) : Pagination :=
  let totalPages_ :=
    if (total =? 0)%Z then 1%Z else ceilOfQuotient total pageSize_ in
  {| page := page_;
     pageSize := pageSize_;
     totalRecords := total;
     totalPages := totalPages_;
     hasNextPage := (page_ <? totalPages_)%Z;
     hasPreviousPage := (1 <? page_)%Z |}.

Definition orElse {A} (o : option A) (default : A) : A :=
  match o with Some a => a | None => default end.

Definition databaseFailure {A} : Exit HTTPError A :=
  Failure {| status := 500; message := "Database error occurred" |}.

(** GET /medicines *)
Definition getMedicines (d : Database) (query : Query)
  : Exit HTTPError MedicinesPage :=
  let page_ := orElse (query_page query) 1%Z in
  let pageSize_ := orElse (query_pageSize query) 50%Z in
  let whereClause := buildWhereClause (query_params query) in
  match getTotalCount d whereClause with
  | Failure _ => databaseFailure
  | Success total =>
      match getPaginatedData d whereClause page_ pageSize_ with
      | Failure _ => databaseFailure
      | Success data_ =>
          Success {| data := data_;
                     pagination := paginate page_ pageSize_ total |}
      end
  end.

(* ================================================================== *)
(** ** server.ts: distinct values and statistics *)

Record FieldValues : Type := mkFieldValues {
  fieldName : string;
  values : list string
}.

(** SELECT DISTINCT column FROM medicines
    WHERE column IS NOT NULL AND column != '' ORDER BY column *)
Definition nonBlank (d : Database) (column : string) : list string :=
  flat_map (fun r => match field r column with
                     | Some v => if String.eqb v "" then [] else [v]
                     | None => []
                     end) (rows d).

Definition selectDistinct (d : Database) (column : string) : list string :=
  SQLite.orderedDistinct (nonBlank d column).

(** GET /medicines/fields/:fieldName.  The guard lets a name through
    whenever the lookup is truthy; for an inherited member the
    statement built over it cannot be run and the request ends as a
    database error. *)
Definition getFieldValues (d : Database) (name : string)
  : Exit HTTPError FieldValues :=
  match JS.get fieldMapping name with
  | JS.Undefined =>
      Failure {| status := 400; message := "Invalid field name" |}
  | JS.Inherited _ => databaseFailure
  | JS.Own column =>
      Success {| fieldName := name; values := selectDistinct d column |}
  end.

Record Stats : Type := mkStats {
  totalMedicines : nat;
  human : nat;
  veterinary : nat;
  authorised : nat;
  withdrawn : nat;
  refused : nat
}.

(** COUNT(CASE WHEN condition THEN 1 END) *)
Definition countWhen (condition : Medicine -> option bool)
  (l : list Medicine) : nat :=
  List.length (filter (fun r => SQLite.isTrue (condition r)) l).

Definition equals (column text : string) (r : Medicine) : option bool :=
  option_map (String.eqb text) (field r column).

Definition isLike (column pattern : string) (r : Medicine) : option bool :=
  option_map (SQLite.like pattern) (field r column).

(** GET /medicines/stats *)
Definition getStats (d : Database) : Stats :=
  {| totalMedicines := List.length (rows d);
     human := countWhen (equals "category" "Human") (rows d);
     veterinary := countWhen (equals "category" "Veterinary") (rows d);
     authorised := countWhen (equals "medicineStatus" "Authorised") (rows d);
     withdrawn := countWhen (isLike "medicineStatus" "%withdrawn%") (rows d);
     refused := countWhen (isLike "medicineStatus" "%refused%") (rows d) |}.

(* ================================================================== *)
(** ** Notions the specification speaks in *)

(** [needle] occurs in [text], character for character. *)
Fixpoint includes (needle text : string) : bool :=
  String.prefix needle text
  || match text with
     | EmptyString => false
     | String _ text' => includes needle text'
     end.

(** [needle] occurs in [text] up to the case of ASCII letters. *)
Fixpoint sameTextNoCase (a b : string) : bool :=
  match a, b with
  | EmptyString, EmptyString => true
  | String c a', String d b' => SQLite.sameNoCase c d && sameTextNoCase a' b'
  | _, _ => false
  end.

Definition occursNoCase (needle text : string) : Prop :=
  exists before middle after,
    text = (before ++ middle ++ after)%string
    /\ sameTextNoCase needle middle = true.

(** A keyword with no LIKE wildcard in it. *)
Definition literal (keyword : string) : bool :=
  JS.all (fun c => negb (Ascii.eqb c "%") && negb (Ascii.eqb c "_")) keyword.

(** A canonical field: a text column of the table. *)
Definition isCanonicalField (name : string) : bool :=
  existsb (String.eqb name) textColumns.

(* ================================================================== *)
(** ** Notions used in the statements *)

(** A code unit the four rewriting steps of [cleanHeader] leave alone. *)
Definition settled (c : ascii) : bool :=
  negb (JS.isLF c) && negb (JS.isSpace c) && negb (JS.isParenOrSlash c)
  && Ascii.eqb (JS.lowerChar c) c.

(** A header whose only white space is spaces and line feeds. *)
Definition plainSpacing (c : ascii) : bool :=
  negb (JS.isWhiteSpace c) || JS.isSpace c || JS.isLF c.

(** The two results a row can end in. *)
Definition ok : RowResult := {| success := true; error := None |}.
Definition ko (e : RowError) : RowResult :=
  {| success := false; error := Some e |}.

(** What a run prints once the rows are processed. *)
Definition report (result : ImportOutcome) : list ConsoleLine :=
  LogComplete (successCount result) (errorCount result)
  :: (if 0 <? List.length (errors result)
      then LogErrorsHeader
           :: List.map LogError (firstn 5 (errors result))
           ++ (if 5 <? List.length (errors result)
               then [LogMore (List.length (errors result) - 5)] else [])
      else []).

(** The failure details among some console lines. *)
Definition printedErrors (lines : list ConsoleLine) : list RowError :=
  flat_map (fun line => match line with
                        | LogError e => [e]
                        | _ => []
                        end) lines.

(** What [transformRow] can put into the object: never the key [id],
    never a number. *)
Definition plain (entry : string * value) : Prop :=
  fst entry <> "id" /\ forall n, snd entry <> VNum n.

(** A row none of whose cells carries text for a column. *)
Definition blankRow (row : RawRow) : Prop :=
  forall rawKey rawVal,
    In (rawKey, rawVal) row ->
    JS.ownProperty csvToTableMapping (cleanHeader rawKey) = None
    \/ rawVal = "".

Definition nullOnColumns (entry : string * value) : Prop :=
  isCanonicalField (fst entry) = true -> snd entry = VNull.

(** The identities in use never exceed the sequence. *)
Definition consistent (d : Database) : Prop :=
  Forall (fun r => (id r <= sequence d)%Z) (rows d).

Definition nullRecord (i : Z) : Medicine :=
  {| id := i; fields := List.map (fun c => (c, None)) textColumns |}.

(** [counts P l n]: exactly [n] rows of [l] satisfy [P]. *)
Inductive counts (P : Medicine -> Prop) : list Medicine -> nat -> Prop :=
| counts_none : counts P [] 0
| counts_in r l n : P r -> counts P l n -> counts P (r :: l) (S n)
| counts_out r l n : ~ P r -> counts P l n -> counts P (r :: l) n.

Definition statusIs (text : string) (r : Medicine) : Prop :=
  field r "medicineStatus" = Some text.

Definition categoryIs (text : string) (r : Medicine) : Prop :=
  field r "category" = Some text.

Definition statusMentions (keyword : string) (r : Medicine) : Prop :=
  exists text,
    field r "medicineStatus" = Some text /\ occursNoCase keyword text.

(** *** Sample data *)

Definition emptyWorld : World :=
  {| db := {| rows := []; sequence := 0%Z |}; console := [] |}.

(** A store that turns every write down, and one with room for [n]
    rows. *)
Definition readOnly : Database -> InsertObj -> bool := fun _ _ => true.

Definition roomFor (n : nat) : Database -> InsertObj -> bool :=
  fun d _ => n <=? List.length (rows d).

Definition neverRejects : Database -> InsertObj -> bool := fun _ _ => false.

Definition sampleRecords : list RawRow :=
  [ [("Category", "Human"); ("Name of medicine", "Abasaglar")];
    [("Category", "Veterinary"); ("Name of medicine", "Zolvix")] ].

Definition sixRecords : list RawRow :=
  List.map (fun name => [("Category", "Human"); ("Name of medicine", name)])
    ["A"; "B"; "C"; "D"; "E"; "F"].

Definition sampleFiles : string -> option string :=
  fun filename => if String.eqb filename "medicines.csv"
                  then Some "Category,Name of medicine" else None.

Definition parseTo (records : list RawRow) : string -> option (list RawRow) :=
  fun _ => Some records.

Definition withStatus (i : Z) (text : string) : Medicine :=
  {| id := i;
     fields := List.map (fun c => (c, if String.eqb c "medicineStatus"
                                      then Some text else None))
                        textColumns |}.

Definition withCategory (i : Z) (text : string) : Medicine :=
  {| id := i;
     fields := List.map (fun c => (c, if String.eqb c "category"
                                      then Some text else None))
                        textColumns |}.

(** The header "(", TAB, ")". *)
Definition tabInParentheses : string :=
  String "(" (String "009" (String ")" EmptyString)).

(* ================================================================== *)
(** ** server.ts: one record by identity *)

(** The value of a character as a digit: 0-9, then the letters in
    either case from 10 on. *)
Definition digitValue (c : ascii) : option Z :=
  let n := nat_of_ascii c in
  if (48 <=? n) && (n <=? 57) then Some (Z.of_nat (n - 48))
  else if (97 <=? n) && (n <=? 122) then Some (Z.of_nat (n - 87))
  else if (65 <=? n) && (n <=? 90) then Some (Z.of_nat (n - 55))
  else None.

Definition digitIn (radix : Z) (c : ascii) : option Z :=
  match digitValue c with
  | Some v => if (v <? radix)%Z then Some v else None
  | None => None
  end.

(** The value of the longest run of digits at the front of [s],
    continuing from [acc]. *)
Fixpoint parseDigits (radix acc : Z) (s : string) : Z :=
  match s with
  | EmptyString => acc
  | String c s' =>
      match digitIn radix c with
      | Some v => parseDigits radix (acc * radix + v) s'
      | None => acc
      end
  end.

Definition hasDigit (radix : Z) (s : string) : bool :=
  match s with
  | EmptyString => false
  | String c _ => match digitIn radix c with Some _ => true | None => false end
  end.

Definition stripSign (s : string) : bool * string :=
  match s with
  | String c s' =>
      if Ascii.eqb c "-" then (true, s')
      else if Ascii.eqb c "+" then (false, s')
      else (false, s)
  | EmptyString => (false, s)
  end.

Definition stripHexPrefix (s : string) : Z * string :=
  match s with
  | String c (String x s') =>
      if Ascii.eqb c "0" && (Ascii.eqb x "x" || Ascii.eqb x "X")
      then (16%Z, s') else (10%Z, s)
  | _ => (10%Z, s)
  end.

(** [parseInt(text)] with no radix given: leading white space and a
    sign are skipped, [0x] selects base 16, the digits that follow are
    read and whatever comes after them is ignored; [None] is NaN.  The
    integer is exact; the number the program holds is the nearest
    double, the same value up to 2^53. *)
Definition parseInt (text : string) : option Z :=
  let (negative, unsigned) := stripSign (JS.trimStart text) in
  let (radix, digits) := stripHexPrefix unsigned in
  if hasDigit radix digits
  then Some ((if negative then -1 else 1) * parseDigits radix 0 digits)%Z
  else None.

(** GET /medicines/:id *)
Definition getMedicineById (d : Database) (idText : string)
  : Exit HTTPError Medicine :=
  match parseInt idText with
  | None => Failure {| status := 400; message := "Invalid ID" |}
  | Some numId =>
      match limit 1 (filter (fun r => Z.eqb (id r) numId) (rows d)) with
      | [] => Failure {| status := 404; message := "Medicine not found" |}
      | r :: _ => Success r
      end
  end.

(* ================================================================== *)
(** ** Further notions used in the statements *)

Definition isUpperAscii (c : ascii) : bool :=
  (65 <=? nat_of_ascii c) && (nat_of_ascii c <=? 90).

Definition isDecimalDigit (c : ascii) : bool :=
  (48 <=? nat_of_ascii c) && (nat_of_ascii c <=? 57).

(** The header of [cell] leads to [column]. *)
Definition mapsTo (column : string) (cell : string * string) : bool :=
  match JS.get csvToTableMapping (cleanHeader (fst cell)) with
  | JS.Own c => String.eqb c column
  | _ => false
  end.

(** The value of the last cell of the row whose header leads to
    [column]. *)
Fixpoint lastCell (row : RawRow) (column : string) : option value :=
  match row with
  | [] => None
  | cell :: rest =>
      match lastCell rest column with
      | Some v => Some v
      | None => if mapsTo column cell then Some (cellValue (snd cell))
                else None
      end
  end.

Fixpoint distinctb (l : list string) : bool :=
  match l with
  | [] => true
  | x :: l' => negb (existsb (String.eqb x) l') && distinctb l'
  end.

Definition isInsertError (e : RowError) : Prop :=
  exists row, e = DatabaseInsertError row.

(** The columns the global search looks into. *)
Definition searchColumns : list string :=
  [ "nameOfMedicine"; "inn"; "activeSubstance"; "therapeuticArea";
    "therapeuticIndication"; "marketingAuthorisationDeveloper";
    "emaProductNumber" ].

Definition fieldLike (pattern : string) (r : Medicine) (column : string)
  : bool :=
  match field r column with
  | Some text => SQLite.like pattern text
  | None => false
  end.

(** The rows a page request yields, none when the statement fails. *)
Definition pageData (d : Database) (whereClause : option SQL)
  (page_ pageSize_ : Z) : list Medicine :=
  match getPaginatedData d whereClause page_ pageSize_ with
  | Success l => l
  | Failure _ => []
  end.

Definition invalidField : HTTPError :=
  {| status := 400; message := "Invalid field name" |}.

Definition notFound : HTTPError :=
  {| status := 404; message := "Medicine not found" |}.

(** A tail that does not go on with a letter or a digit. *)
Definition startsClean (tail : string) : bool :=
  match tail with
  | EmptyString => true
  | String c _ => match digitValue c with None => true | Some _ => false end
  end.

Definition invalidId : HTTPError :=
  {| status := 400; message := "Invalid ID" |}.

(** The record a CSV row is stored as under identity [i]: each text
    column holds the text of the last cell whose header leads to it. *)
Definition storedAs (i : Z) (row : RawRow) : Medicine :=
  {| id := i;
     fields := List.map (fun c => (c, textOf (lastCell row c))) textColumns |}.

(** The records of a file, stored under consecutive identities. *)
Fixpoint storedFrom (next : Z) (records : list RawRow) : list Medicine :=
  match records with
  | [] => []
  | row :: rest => storedAs next row :: storedFrom (next + 1) rest
  end.


(* ================================================================== *)
(** ** server.ts: from a handler's effect to the reply *)

(** What reaches [onError].  A route hands its effect to
    [Effect.runPromise], which rejects with a FiberFailure wrapping
    the failure; an HTTPError thrown as such would arrive bare. *)
Inductive Thrown : Type :=
| BareHTTPError (e : HTTPError)
| FiberFailure (cause : HTTPError).

Inductive Reply (A : Type) : Type :=
| Answer (body : A)
| ErrorReply (status_ : nat) (error_ : string).
Arguments Answer {A} body.
Arguments ErrorReply {A} status_ error_.

(** [.onError]: only an instance of HTTPError keeps its status and
    message. *)
Definition onError {A} (thrown : Thrown) : Reply A :=
  match thrown with
  | BareHTTPError e => ErrorReply (status e) (message e)
  | FiberFailure _ => ErrorReply 500 "Internal server error"
  end.

Definition runPromise {A} (x : Exit HTTPError A) : Thrown + A :=
  match x with
  | Success a => inr a
  | Failure e => inl (FiberFailure e)
  end.

(** A route whose handler returns [Effect.runPromise(effect)]. *)
Definition route {A} (x : Exit HTTPError A) : Reply A :=
  match runPromise x with
  | inr a => Answer a
  | inl thrown => onError thrown
  end.

(* ================================================================== *)
(** ** Further notions and sample data *)

(** A parameter that asks for a per-field filter, and the condition it
    stands for. *)
Definition wanted (entry : string * string) : bool :=
  isCanonicalField (fst entry) && JS.truthy (snd entry).

Definition likeOf (entry : string * string) : SQL :=
  Like (Column (fst entry)) ("%" ++ snd entry ++ "%").

(** A table of [n] rows with identities 1 to [n]. *)
Definition tableOf (n : nat) : Database :=
  {| rows := List.map (fun i => withCategory (Z.of_nat i) "Human") (seq 1 n);
     sequence := Z.of_nat n |}.

Definition pageQuery (page_ size : Z) : Query :=
  {| query_page := Some page_; query_pageSize := Some size;
     query_params := [] |}.

(* ================================================================== *)
(** ** Header normalisation: facts *)

Section HeaderFacts.

Import JS.

Lemma all_trimStart p s : all p s = true -> all p (trimStart s) = true.
Proof.
  induction s as [|c s IH]; simpl; auto.
  intros H. apply andb_prop in H as [Hc Hs].
  destruct (isWhiteSpace c); simpl; auto.
  now rewrite Hc, Hs.
Qed.

Lemma all_trimEnd p s : all p s = true -> all p (trimEnd s) = true.
Proof.
  induction s as [|c s IH]; simpl; auto.
  intros H. apply andb_prop in H as [Hc Hs].
  specialize (IH Hs).
  destruct (trimEnd s) as [|d t].
  - destruct (isWhiteSpace c); simpl; auto. now rewrite Hc.
  - change (all p (String c (String d t)) = true).
    simpl. simpl in IH. now rewrite Hc, IH.
Qed.

Lemma all_trim p s : all p s = true -> all p (trim s) = true.
Proof. intros H. unfold trim. now apply all_trimEnd, all_trimStart. Qed.

Lemma all_impl (p q : ascii -> bool) s :
  (forall c, p c = true -> q c = true) -> all p s = true -> all q s = true.
Proof.
  intros Hpq. induction s as [|c s IH]; simpl; auto.
  intros H. apply andb_prop in H as [Hc Hs].
  now rewrite (Hpq _ Hc), IH.
Qed.

Lemma all_map p f s :
  all p (map f s) = all (fun c => p (f c)) s.
Proof. induction s as [|c s IH]; simpl; congruence. Qed.

Lemma all_remove p q s :
  all p s = true -> all p (remove q s) = true.
Proof.
  induction s as [|c s IH]; simpl; auto.
  intros H. apply andb_prop in H as [Hc Hs].
  destruct (q c); simpl; auto. now rewrite Hc, IH.
Qed.

Lemma all_remove_neg q s : all (fun c => negb (q c)) (remove q s) = true.
Proof.
  induction s as [|c s IH]; simpl; auto.
  destruct (q c) eqn:E; simpl; auto. now rewrite E, IH.
Qed.

Lemma all_andb p q s :
  all (fun c => p c && q c) s = all p s && all q s.
Proof.
  induction s as [|c s IH]; simpl; auto.
  rewrite IH. destruct (p c), (q c), (all p s), (all q s); reflexivity.
Qed.

Lemma map_fixed f s :
  all (fun c => Ascii.eqb (f c) c) s = true -> map f s = s.
Proof.
  induction s as [|c s IH]; simpl; auto.
  intros H. apply andb_prop in H as [Hc Hs].
  apply Ascii.eqb_eq in Hc. now rewrite Hc, IH.
Qed.

Lemma remove_none p s :
  all (fun c => negb (p c)) s = true -> remove p s = s.
Proof.
  induction s as [|c s IH]; simpl; auto.
  intros H. apply andb_prop in H as [Hc Hs].
  apply negb_true_iff in Hc. now rewrite Hc, IH.
Qed.

Lemma replaceSpaceRuns_none s :
  all (fun c => negb (isSpace c)) s = true -> replaceSpaceRuns s = s.
Proof.
  induction s as [|c s IH]; simpl; auto.
  intros H. apply andb_prop in H as [Hc Hs].
  apply negb_true_iff in Hc. now rewrite Hc, IH.
Qed.

(** After the runs of spaces are replaced no space is left, and no
    line feed appears that was not there. *)
Lemma replaceSpaceRuns_spec s :
  all (fun c => negb (isLF c)) s = true ->
  all (fun c => negb (isLF c) && negb (isSpace c)) (replaceSpaceRuns s)
  = true.
Proof.
  induction s as [|c s IH]; simpl; auto.
  intros H. apply andb_prop in H as [Hc Hs].
  specialize (IH Hs).
  destruct (isSpace c) eqn:Ec.
  - destruct s as [|d s']; [reflexivity|].
    destruct (isSpace d); [exact IH|].
    change (all (fun c0 => negb (isLF c0) && negb (isSpace c0))
              (String "_" (replaceSpaceRuns (String d s'))) = true).
    cbn [all]. now rewrite IH.
  - cbn [all]. now rewrite Hc, Ec, IH.
Qed.

Lemma replaceNewlines_spec s :
  all (fun c => negb (isLF c)) (replaceNewlines s) = true.
Proof.
  unfold replaceNewlines. rewrite all_map.
  induction s as [|c s IH]; simpl; auto.
  rewrite IH. now destruct (isLF c) eqn:E; [|rewrite E].
Qed.

Lemma lowerChar_settles c :
  negb (isLF c) && negb (isSpace c) && negb (isParenOrSlash c) = true ->
  settled (lowerChar c) = true.
Proof.
  destruct c as [[] [] [] [] [] [] [] []];
    vm_compute; intros H; solve [reflexivity | discriminate H].
Qed.

(** The normalised header consists of settled code units only. *)
Lemma cleanHeader_settled raw : all settled (cleanHeader raw) = true.
Proof.
  unfold cleanHeader, toLowerCase. rewrite all_map.
  apply all_impl with (p := fun c =>
    negb (isLF c) && negb (isSpace c) && negb (isParenOrSlash c)).
  - exact lowerChar_settles.
  - rewrite all_andb. apply andb_true_intro. split.
    + apply all_remove, replaceSpaceRuns_spec, replaceNewlines_spec.
    + apply all_remove_neg.
Qed.

(** On a string of settled code units only [trim] can still act. *)
Lemma cleanHeader_on_settled s :
  all settled s = true -> cleanHeader s = trim s.
Proof.
  intros H. apply all_trim in H.
  unfold cleanHeader.
  assert (E1 : replaceNewlines (trim s) = trim s).
  { unfold replaceNewlines. apply map_fixed.
    revert H. apply all_impl. intros c Hc. unfold settled in Hc.
    repeat (apply andb_prop in Hc as [Hc ?]).
    apply negb_true_iff in Hc. rewrite Hc. apply Ascii.eqb_refl. }
  rewrite E1.
  assert (E2 : replaceSpaceRuns (trim s) = trim s).
  { apply replaceSpaceRuns_none. revert H. apply all_impl.
    intros c Hc. unfold settled in Hc.
    repeat (apply andb_prop in Hc as [Hc ?]). assumption. }
  rewrite E2.
  assert (E3 : removeParens (trim s) = trim s).
  { apply remove_none. revert H. apply all_impl.
    intros c Hc. unfold settled in Hc.
    repeat (apply andb_prop in Hc as [Hc ?]). assumption. }
  rewrite E3.
  apply map_fixed. revert H. apply all_impl.
  intros c Hc. unfold settled in Hc.
  now apply andb_prop in Hc as [_ Hc].
Qed.

(** A second normalisation only trims the result of the first. *)
Lemma cleanHeader_twice raw :
  cleanHeader (cleanHeader raw) = trim (cleanHeader raw).
Proof. apply cleanHeader_on_settled, cleanHeader_settled. Qed.

End HeaderFacts.

Section SpacingFacts.

Import JS.

Lemma trimStart_fixed s :
  all (fun c => negb (isWhiteSpace c)) s = true -> trimStart s = s.
Proof.
  destruct s as [|c s]; simpl; [reflexivity|].
  intros H. apply andb_prop in H as [Hc _].
  apply negb_true_iff in Hc. now rewrite Hc.
Qed.

Lemma trimEnd_fixed s :
  all (fun c => negb (isWhiteSpace c)) s = true -> trimEnd s = s.
Proof.
  induction s as [|c s IH]; simpl; [reflexivity|].
  intros H. apply andb_prop in H as [Hc Hs].
  rewrite (IH Hs). apply negb_true_iff in Hc. rewrite Hc.
  now destruct s.
Qed.

Lemma trim_fixed s :
  all (fun c => negb (isWhiteSpace c)) s = true -> trim s = s.
Proof.
  intros H. unfold trim. rewrite (trimStart_fixed _ H).
  now apply trimEnd_fixed.
Qed.

Lemma replaceSpaceRuns_no_space s :
  all (fun c => negb (isWhiteSpace c) || isSpace c) s = true ->
  all (fun c => negb (isWhiteSpace c)) (replaceSpaceRuns s) = true.
Proof.
  induction s as [|c s IH]; simpl; auto.
  intros H. apply andb_prop in H as [Hc Hs].
  specialize (IH Hs).
  destruct (isSpace c) eqn:Ec.
  - destruct s as [|d s']; [reflexivity|].
    destruct (isSpace d); [exact IH|].
    change (all (fun c0 => negb (isWhiteSpace c0))
              (String "_" (replaceSpaceRuns (String d s'))) = true).
    cbn [all]. now rewrite IH.
  - cbn [all]. rewrite orb_false_r in Hc. now rewrite Hc, IH.
Qed.

Lemma lowerChar_keeps_ink c :
  negb (isWhiteSpace c) = true -> negb (isWhiteSpace (lowerChar c)) = true.
Proof.
  destruct c as [[] [] [] [] [] [] [] []];
    vm_compute; intros H; solve [reflexivity | discriminate H].
Qed.

Lemma newline_to_space c :
  plainSpacing c = true ->
  (fun c0 => negb (isWhiteSpace c0) || isSpace c0)
    (if isLF c then " "%char else c) = true.
Proof.
  destruct c as [[] [] [] [] [] [] [] []];
    vm_compute; intros H; solve [reflexivity | discriminate H].
Qed.

(** A header whose white space is spaces and line feeds only
    normalises to a string without any white space. *)
Lemma cleanHeader_no_whitespace raw :
  all plainSpacing raw = true ->
  all (fun c => negb (isWhiteSpace c)) (cleanHeader raw) = true.
Proof.
  intros H. unfold cleanHeader, toLowerCase. rewrite all_map.
  apply all_impl with (p := fun c => negb (isWhiteSpace c));
    [exact lowerChar_keeps_ink|].
  apply all_remove, replaceSpaceRuns_no_space.
  unfold replaceNewlines. rewrite all_map.
  apply all_impl with (p := plainSpacing); [exact newline_to_space|].
  now apply all_trim.
Qed.

Lemma cleanHeader_plain_spacing_trimmed raw :
  all plainSpacing raw = true -> trim (cleanHeader raw) = cleanHeader raw.
Proof. intros H. now apply trim_fixed, cleanHeader_no_whitespace. Qed.

End SpacingFacts.

(* ================================================================== *)
(** ** The importer: facts *)

Section ImporterFacts.

Variable readText : string -> option string.
Variable parse : string -> option (list RawRow).
Variable rejects : Database -> InsertObj -> bool.

(** [attempt] never fails: it turns either exit of [processRow] into
    a result. *)
Lemma attempt_eq (E : Type) row w :
  attempt rejects (E := E) row w =
  match processRow rejects row w with
  | (Success _, w1) => (Success ok, w1)
  | (Failure e, w1) => (Success (ko e), w1)
  end.
Proof.
  unfold attempt, Effect.catchAll, Effect.map, Effect.flatMap,
    Effect.succeed.
  destruct (processRow rejects row w) as [[e|[]] w1]; reflexivity.
Qed.

(** A row that fails leaves the world as it found it, and its error
    names the row. *)
Lemma processRow_failure row w e w1 :
  processRow rejects row w = (Failure e, w1) ->
  w1 = w /\ (e = ValidationError row \/ e = DatabaseInsertError row).
Proof.
  unfold processRow, validateRow, insertRow, Effect.flatMap, Effect.succeed,
    Effect.fail.
  destruct (insertMedicineSchema_parse (transformRow row)) as [v|].
  - destruct (rejects (db w) v || idTaken (db w) (id (rowOf (db w) v)));
      intros H; inversion H; auto.
  - intros H; inversion H; auto.
Qed.

(** A row leaves the console alone. *)
Lemma processRow_console row w x w1 :
  processRow rejects row w = (x, w1) -> console w1 = console w.
Proof.
  unfold processRow, validateRow, insertRow, Effect.flatMap, Effect.succeed,
    Effect.fail.
  destruct (insertMedicineSchema_parse (transformRow row)) as [v|].
  - destruct (rejects (db w) v || idTaken (db w) (id (rowOf (db w) v)));
      intros H; inversion H; reflexivity.
  - intros H; inversion H; reflexivity.
Qed.

(** Every batch runs to its end, whatever its rows do. *)
Lemma batch_total records :
  forall w, exists s f w', batch rejects w records s f w'.
Proof.
  induction records as [|row rest IH]; intros w.
  - exists 0, 0, w. constructor.
  - destruct (processRow rejects row w) as [[e|[]] w1] eqn:Hrow;
      destruct (IH w1) as (s & f & w' & Hrest).
    + exists s, (S f), w'. eapply batch_failed; eauto.
    + exists (S s), f, w'. eapply batch_accepted; eauto.
Qed.

Lemma batch_length w records s f w' :
  batch rejects w records s f w' -> s + f = List.length records.
Proof. induction 1; simpl; lia. Qed.

Lemma batch_console w records s f w' :
  batch rejects w records s f w' -> console w' = console w.
Proof.
  induction 1; auto;
    match goal with
    | H : processRow _ _ _ = _ |- _ => apply processRow_console in H
    end; congruence.
Qed.

(** The results of the traversal, read against the batch. *)
Lemma forEach_attempt (E : Type) w records s f w' :
  batch rejects w records s f w' ->
  exists results,
    Effect.forEach records (attempt rejects (E := E)) w
    = (Success results, w')
    /\ List.length results = List.length records
    /\ List.length (filter success results) = s
    /\ List.length (filter (fun r => negb (success r)) results) = f
    /\ List.length (errorsOf results) = f
    /\ Forall (fun e => exists row, In row records /\
                 (e = ValidationError row \/ e = DatabaseInsertError row))
              (errorsOf results).
Proof.
  induction 1 as [w | w w1 w' row rest s f Hrow _ IH
                    | w w1 w' row rest s f e Hrow _ IH].
  - exists []. repeat split; constructor.
  - destruct IH as (results & Hrun & Hlen & Hs & Hf & He & Hall).
    exists (ok :: results).
    cbn [Effect.forEach]. unfold Effect.flatMap at 1.
    rewrite attempt_eq, Hrow. unfold Effect.flatMap at 1. rewrite Hrun.
    split; [reflexivity|].
    split; [simpl; congruence|]. split; [simpl; congruence|].
    split; [simpl; congruence|]. split; [exact He|].
    change (errorsOf (ok :: results)) with (errorsOf results).
    revert Hall. apply Forall_impl.
    intros e (r & Hin & Hr). exists r. split; [now right|assumption].
  - destruct IH as (results & Hrun & Hlen & Hs & Hf & He & Hall).
    exists (ko e :: results).
    cbn [Effect.forEach]. unfold Effect.flatMap at 1.
    rewrite attempt_eq, Hrow. unfold Effect.flatMap at 1. rewrite Hrun.
    split; [reflexivity|].
    split; [simpl; congruence|]. split; [simpl; congruence|].
    split; [simpl; congruence|].
    change (errorsOf (ko e :: results)) with (e :: errorsOf results).
    split; [simpl; congruence|].
    constructor.
    + exists row. split; [now left|].
      now apply processRow_failure in Hrow.
    + revert Hall. apply Forall_impl.
      intros e' (r & Hin & Hr). exists r. split; [now right|assumption].
Qed.

Lemma processAllRows_batch (E : Type) w records s f w' :
  batch rejects w records s f w' ->
  exists outcome,
    processAllRows rejects (E := E) records w = (Success outcome, w')
    /\ successCount outcome = s
    /\ errorCount outcome = f
    /\ List.length (errors outcome) = f
    /\ Forall (fun e => exists row, In row records /\
                 (e = ValidationError row \/ e = DatabaseInsertError row))
              (errors outcome).
Proof.
  intros Hb.
  destruct (forEach_attempt E _ _ _ _ _ Hb)
    as (results & Hrun & _ & Hs & Hf & He & Hall).
  unfold processAllRows, Effect.flatMap. rewrite Hrun.
  eexists. split; [reflexivity|]. simpl. auto.
Qed.

(** Printing a list of errors appends one line for each. *)
Lemma forEach_log (E : Type) (l : list RowError) w :
  Effect.forEach (E := E) l (fun e => Effect.log (LogError e)) w
  = (Success (List.map (fun _ => tt) l),
     {| db := db w; console := console w ++ List.map LogError l |}).
Proof.
  revert w. induction l as [|e l IH]; intros w.
  - simpl. unfold Effect.succeed. rewrite app_nil_r. now destruct w.
  - cbn [Effect.forEach]. unfold Effect.flatMap at 1.
    unfold Effect.log at 1. unfold Effect.flatMap at 1. rewrite IH.
    unfold Effect.succeed. simpl. now rewrite <- app_assoc.
Qed.

(** The whole run, once the file has been read and parsed. *)
Lemma importCSV_run filename content records w s f w1 :
  readText filename = Some content ->
  parse content = Some records ->
  batch rejects
    {| db := db w;
       console := console w ++ [LogReading filename; LogParsing;
                                LogProcessing (List.length records)] |}
    records s f w1 ->
  exists outcome,
    importCSV readText parse rejects filename w
    = (Success outcome,
       {| db := db w1;
          console := console w
                     ++ [LogReading filename; LogParsing;
                         LogProcessing (List.length records)]
                     ++ report outcome |})
    /\ successCount outcome = s
    /\ errorCount outcome = f
    /\ List.length (errors outcome) = f
    /\ Forall (fun e => exists row, In row records /\
                 (e = ValidationError row \/ e = DatabaseInsertError row))
              (errors outcome).
Proof.
  intros Hread Hparse Hb.
  pose proof (batch_console _ _ _ _ _ Hb) as Hc. simpl in Hc.
  destruct (processAllRows_batch ImportError _ _ _ _ _ Hb)
    as (outcome & Hrun & Hs & Hf & He & Hall).
  exists outcome. split; [|auto].
  unfold importCSV, readCSVFile, parseCSV.
  rewrite Hread.
  unfold Effect.flatMap, Effect.succeed. unfold Effect.log at 1 2 3.
  cbn [db console]. rewrite Hparse.
  cbn [db console]. repeat rewrite <- app_assoc. cbn [app].
  rewrite Hrun. unfold Effect.log at 1. cbn [db console].
  unfold report, Effect.when.
  destruct (0 <? List.length (errors outcome)).
  - unfold Effect.log at 1. rewrite forEach_log.
    destruct (5 <? List.length (errors outcome));
      unfold Effect.log; cbn [db console];
      rewrite Hc; repeat rewrite <- app_assoc; cbn [app];
      try rewrite app_nil_r; reflexivity.
  - rewrite Hc. repeat rewrite <- app_assoc. reflexivity.
Qed.

End ImporterFacts.

(* ================================================================== *)
(** ** Transformation and validation: facts *)

Section RowFacts.

Lemma ownProperty_In {A} (o : list (string * A)) k v :
  JS.ownProperty o k = Some v -> In (k, v) o.
Proof.
  induction o as [|[k' v'] o IH]; simpl; [discriminate|].
  destruct (String.eqb k' k) eqn:E.
  - intros [= ->]. apply String.eqb_eq in E. subst. now left.
  - intros H. right. auto.
Qed.

Lemma ownProperty_absent {A} (o : list (string * A)) k :
  (forall v, ~ In (k, v) o) -> JS.ownProperty o k = None.
Proof.
  intros H. destruct (JS.ownProperty o k) as [v|] eqn:E; [|reflexivity].
  apply ownProperty_In in E. now apply H in E.
Qed.

Lemma set_Forall {A} (P : string * A -> Prop) o k v :
  Forall P o -> P (k, v) -> Forall P (JS.set o k v).
Proof.
  intros Ho Hkv. induction Ho as [|[k' v'] o Hx Ho IH]; simpl.
  - constructor; [assumption|constructor].
  - destruct (String.eqb k' k) eqn:E.
    + apply String.eqb_eq in E. subst. now constructor.
    + now constructor.
Qed.

Lemma fold_left_invariant {A B} (f : A -> B -> A) (P : A -> Prop) l :
  (forall acc x, In x l -> P acc -> P (f acc x)) ->
  forall init, P init -> P (fold_left f l init).
Proof.
  induction l as [|x l IH]; intros Hstep init Hinit; simpl; [assumption|].
  apply IH.
  - intros acc y Hy. apply Hstep. now right.
  - apply Hstep; [now left|assumption].
Qed.

Lemma existsb_eqb_In k l :
  existsb (String.eqb k) l = true <-> In k l.
Proof.
  rewrite existsb_exists. split.
  - intros (x & Hx & E). apply String.eqb_eq in E. now subst.
  - intros H. exists k. split; [assumption|apply String.eqb_refl].
Qed.

(** The dictionary sends headers to text columns of the table, in the
    table's own order. *)
Lemma csvToTableMapping_columns :
  List.map snd csvToTableMapping = textColumns.
Proof. reflexivity. Qed.

Lemma mapped_column k column :
  JS.ownProperty csvToTableMapping k = Some column ->
  isCanonicalField column = true.
Proof.
  intros H. apply ownProperty_In in H.
  apply existsb_eqb_In. rewrite <- csvToTableMapping_columns.
  change column with (snd (k, column)). now apply in_map.
Qed.

Lemma canonical_not_id column :
  isCanonicalField column = true -> column <> "id".
Proof. intros H ->. discriminate H. Qed.

(** The string form of an inherited member is no key of the schema. *)
Lemma member_key_foreign m :
  In m JS.prototypeMembers ->
  JS.memberToString m <> "id"
  /\ isCanonicalField (JS.memberToString m) = false.
Proof.
  assert (H : forallb (fun m =>
                negb (String.eqb (JS.memberToString m) "id")
                && negb (isCanonicalField (JS.memberToString m)))
              JS.prototypeMembers = true) by reflexivity.
  rewrite forallb_forall in H. intros Hm. specialize (H m Hm).
  apply andb_prop in H as [H1 H2].
  apply negb_true_iff in H1, H2. apply String.eqb_neq in H1. auto.
Qed.

Lemma get_cases {A} (o : list (string * A)) k :
  match JS.get o k with
  | JS.Own v => JS.ownProperty o k = Some v
  | JS.Inherited m =>
      m = k /\ JS.ownProperty o k = None /\ In k JS.prototypeMembers
  | JS.Undefined =>
      JS.ownProperty o k = None /\ ~ In k JS.prototypeMembers
  end.
Proof.
  unfold JS.get. destruct (JS.ownProperty o k); [reflexivity|].
  destruct (existsb (String.eqb k) JS.prototypeMembers) eqn:E.
  - apply existsb_eqb_In in E. auto.
  - split; [reflexivity|]. intros H. apply existsb_eqb_In in H. congruence.
Qed.

Lemma cellValue_plain rawVal n : cellValue rawVal <> VNum n.
Proof. unfold cellValue. now destruct (String.eqb rawVal ""). Qed.

Lemma transformRow_plain row : Forall plain (transformRow row).
Proof.
  unfold transformRow.
  apply fold_left_invariant with (P := Forall plain); [|constructor].
  intros acc [rawKey rawVal] _ Hacc. unfold transformCell.
  pose proof (get_cases csvToTableMapping (cleanHeader rawKey)) as Hget.
  destruct (JS.get csvToTableMapping (cleanHeader rawKey)) as [c|m|].
  - apply set_Forall; [assumption|]. split; simpl.
    + now apply canonical_not_id, mapped_column with (k := cleanHeader rawKey).
    + apply cellValue_plain.
  - destruct Hget as (-> & _ & Hm).
    apply set_Forall; [assumption|]. split; simpl.
    + now apply member_key_foreign.
    + apply cellValue_plain.
  - assumption.
Qed.

(** On such an object the schema finds nothing to object to. *)
Lemma parse_plain o :
  Forall plain o ->
  insertMedicineSchema_parse o
  = Some (flat_map (pick o) ("id" :: textColumns)).
Proof.
  intros Ho. rewrite Forall_forall in Ho.
  unfold insertMedicineSchema_parse.
  assert (Hid : idFieldOk o = true).
  { unfold idFieldOk. rewrite ownProperty_absent; [reflexivity|].
    intros v Hin. apply Ho in Hin. now destruct Hin as [Hk _]. }
  assert (Htext : forallb (textFieldOk o) textColumns = true).
  { apply forallb_forall. intros c _. unfold textFieldOk.
    destruct (JS.ownProperty o c) as [[| |n]|] eqn:E; try reflexivity.
    apply ownProperty_In, Ho in E. destruct E as [_ E].
    now specialize (E n). }
  now rewrite Hid, Htext.
Qed.

Lemma pick_sound o keys k v :
  JS.ownProperty (flat_map (pick o) keys) k = Some v ->
  JS.ownProperty o k = Some v.
Proof.
  induction keys as [|k' keys IH]; simpl; [discriminate|].
  unfold pick at 1. destruct (JS.ownProperty o k') as [v'|] eqn:E; simpl.
  - destruct (String.eqb k' k) eqn:Ek.
    + apply String.eqb_eq in Ek. subst. now intros [= ->].
    + exact IH.
  - exact IH.
Qed.

Lemma transformRow_blank row :
  blankRow row -> Forall nullOnColumns (transformRow row).
Proof.
  intros Hblank. unfold transformRow.
  apply fold_left_invariant with (P := Forall nullOnColumns);
    [|constructor].
  intros acc [rawKey rawVal] Hin Hacc. unfold transformCell.
  pose proof (get_cases csvToTableMapping (cleanHeader rawKey)) as Hget.
  destruct (JS.get csvToTableMapping (cleanHeader rawKey)) as [c|m|].
  - apply set_Forall; [assumption|]. intros _. simpl.
    destruct (Hblank _ _ Hin) as [Hnone| ->]; [congruence|reflexivity].
  - destruct Hget as (-> & _ & Hm).
    apply set_Forall; [assumption|]. intros Hc. simpl in Hc.
    apply member_key_foreign in Hm. destruct Hm as [_ Hm]. congruence.
  - assumption.
Qed.

Lemma fresh_identity d :
  consistent d -> idTaken d (sequence d + 1) = false.
Proof.
  unfold consistent, idTaken. intros H.
  induction H as [|r l Hr _ IH]; simpl; [reflexivity|].
  rewrite IH, orb_false_r. apply Z.eqb_neq. lia.
Qed.

Lemma rowOf_blank d row :
  blankRow row ->
  rowOf d (flat_map (pick (transformRow row)) ("id" :: textColumns))
  = nullRecord (sequence d + 1).
Proof.
  intros Hblank. unfold rowOf, nullRecord.
  set (o := transformRow row).
  set (validated := flat_map (pick o) ("id" :: textColumns)).
  pose proof (transformRow_plain row) as Hplain.
  pose proof (transformRow_blank row Hblank) as Hnull.
  rewrite Forall_forall in Hplain, Hnull. fold o in Hplain, Hnull.
  f_equal.
  - destruct (JS.ownProperty validated "id") as [v|] eqn:E; [|reflexivity].
    apply pick_sound, ownProperty_In, Hplain in E.
    now destruct E as [E _].
  - apply map_ext_in. intros c Hc. f_equal.
    destruct (JS.ownProperty validated c) as [v|] eqn:E; [|reflexivity].
    apply pick_sound, ownProperty_In, Hnull in E. simpl in E.
    rewrite E; [reflexivity|]. now apply existsb_eqb_In.
Qed.

End RowFacts.

(* ================================================================== *)
(** ** The store's text operators: facts *)

Section LikeFacts.

Import SQLite.

Lemma like_percent_unfold p text :
  like (String "%" p) text
  = like p text
    || match text with
       | EmptyString => false
       | String _ text' => like (String "%" p) text'
       end.
Proof. destruct text; reflexivity. Qed.

Lemma like_literal_unfold c p text :
  Ascii.eqb c "%" = false -> Ascii.eqb c "_" = false ->
  like (String c p) text
  = match text with
    | EmptyString => false
    | String d text' => sameNoCase c d && like p text'
    end.
Proof. intros H1 H2. cbn [like]. rewrite H1, H2. reflexivity. Qed.

Lemma like_percent p text :
  like (String "%" p) text = true <->
  exists before rest,
    text = (before ++ rest)%string /\ like p rest = true.
Proof.
  induction text as [|c text IH]; rewrite like_percent_unfold.
  - rewrite orb_false_r. split.
    + intros H. exists EmptyString, EmptyString. auto.
    + intros ([|? ?] & rest & E & H); simpl in E; [|discriminate].
      now subst.
  - rewrite orb_true_iff, IH. split.
    + intros [H | (before & rest & -> & H)].
      * exists EmptyString, (String c text). auto.
      * exists (String c before), rest. auto.
    + intros ([|d before] & rest & E & H); simpl in E.
      * left. now subst.
      * right. injection E as -> ->. eauto.
Qed.

Lemma like_anything text : like "%" text = true.
Proof.
  apply like_percent. exists text, EmptyString. split; [|reflexivity].
  induction text as [|c text IH]; simpl; congruence.
Qed.

Lemma like_keyword keyword p :
  literal keyword = true ->
  forall text,
    like (keyword ++ p) text = true <->
    exists middle rest,
      text = (middle ++ rest)%string
      /\ sameTextNoCase keyword middle = true
      /\ like p rest = true.
Proof.
  induction keyword as [|c keyword IH]; intros Hlit text.
  - simpl. split.
    + intros H. exists EmptyString, text. auto.
    + intros ([|? ?] & rest & E & Hs & H); simpl in *;
        [now subst|discriminate].
  - simpl in Hlit. apply andb_prop in Hlit as [Hc Hlit].
    apply andb_prop in Hc as [H1 H2]. apply negb_true_iff in H1, H2.
    change (String c keyword ++ p)%string with (String c (keyword ++ p)%string).
    rewrite like_literal_unfold by assumption.
    destruct text as [|d text].
    + split; [discriminate|].
      intros ([|? ?] & rest & E & Hs & _); simpl in *; discriminate.
    + rewrite andb_true_iff, (IH Hlit). split.
      * intros (Hcd & middle & rest & -> & Hs & H).
        exists (String d middle), rest. simpl. rewrite Hcd, Hs. auto.
      * intros ([|d' middle] & rest & E & Hs & H); simpl in *;
          [discriminate|].
        injection E as -> ->. apply andb_prop in Hs as [Hcd Hs]. eauto 10.
Qed.

(** [text LIKE '%keyword%'] for a keyword free of wildcards: the
    keyword occurs in the text, up to the case of ASCII letters. *)
Lemma like_occurs keyword text :
  literal keyword = true ->
  like ("%" ++ keyword ++ "%") text = true <-> occursNoCase keyword text.
Proof.
  intros Hlit. unfold occursNoCase.
  change ("%" ++ keyword ++ "%")%string
    with (String "%" (keyword ++ "%")%string).
  rewrite like_percent. split.
  - intros (before & rest & -> & H).
    apply (like_keyword _ _ Hlit) in H as (middle & after & -> & Hs & _).
    eauto.
  - intros (before & middle & after & -> & Hs).
    exists before, (middle ++ after)%string. split; [reflexivity|].
    apply (like_keyword _ _ Hlit). exists middle, after.
    auto using like_anything.
Qed.

End LikeFacts.

Section OrderFacts.

Import SQLite.

Lemma insertDistinct_In x y l :
  In y (insertDistinct x l) <-> y = x \/ In y l.
Proof.
  induction l as [|z l IH]; simpl.
  - intuition congruence.
  - destruct (String_as_OT.compare_spec x z) as [E|E|E]; simpl.
    + subst. intuition congruence.
    + intuition congruence.
    + rewrite IH. intuition congruence.
Qed.

Lemma insertDistinct_sorted x l :
  StronglySorted String_as_OT.lt l -> StronglySorted String_as_OT.lt (insertDistinct x l).
Proof.
  induction 1 as [|z l Hl IH Hz]; simpl.
  - repeat constructor.
  - destruct (String_as_OT.compare_spec x z) as [E|E|E].
    + now constructor.
    + constructor; [now constructor|].
      constructor; [assumption|].
      revert Hz. apply Forall_impl. intros a Ha.
      now transitivity z.
    + constructor; [assumption|].
      apply Forall_forall. intros a Ha.
      apply insertDistinct_In in Ha as [->|Ha]; [assumption|].
      rewrite Forall_forall in Hz. auto.
Qed.

Lemma orderedDistinct_sorted l : StronglySorted String_as_OT.lt (orderedDistinct l).
Proof.
  induction l as [|x l IH]; simpl; [constructor|].
  now apply insertDistinct_sorted.
Qed.

Lemma orderedDistinct_In y l : In y (orderedDistinct l) <-> In y l.
Proof.
  induction l as [|x l IH]; simpl; [reflexivity|].
  rewrite insertDistinct_In, IH. intuition congruence.
Qed.

Lemma sorted_NoDup l : StronglySorted String_as_OT.lt l -> NoDup l.
Proof.
  induction 1 as [|z l Hl IH Hz]; constructor; [|assumption].
  intros Hin. rewrite Forall_forall in Hz.
  apply (irreflexivity (R := String_as_OT.lt) (Hz z Hin)).
Qed.

Lemma nonBlank_In d column v :
  In v (nonBlank d column) <->
  v <> "" /\ exists r, In r (rows d) /\ field r column = Some v.
Proof.
  unfold nonBlank. rewrite in_flat_map. split.
  - intros (r & Hr & Hv). destruct (field r column) as [s|] eqn:E;
      [|contradiction].
    destruct (String.eqb s "") eqn:Es; [contradiction|].
    destruct Hv as [->|[]]. apply String.eqb_neq in Es. eauto.
  - intros (Hv & r & Hr & E). exists r. split; [assumption|].
    rewrite E. apply String.eqb_neq in Hv. rewrite Hv. now left.
Qed.

End OrderFacts.

(* ================================================================== *)
(** ** The query engine: facts *)

Section ServerFacts.

Lemma truthy_iff v : JS.truthy v = true <-> v <> "".
Proof. destruct v; simpl; split; congruence. Qed.

Lemma diagonal_own (l : list string) k v :
  JS.ownProperty (List.map (fun c => (c, c)) l) k = Some v ->
  v = k /\ In k l.
Proof.
  induction l as [|c l IH]; simpl; [discriminate|].
  destruct (String.eqb c k) eqn:E.
  - apply String.eqb_eq in E. intros [= <-]. auto.
  - intros H. apply IH in H. intuition.
Qed.

Lemma diagonal_found (l : list string) k :
  In k l -> JS.ownProperty (List.map (fun c => (c, c)) l) k = Some k.
Proof.
  induction l as [|c l IH]; simpl; [contradiction|].
  destruct (String.eqb c k) eqn:E.
  - apply String.eqb_eq in E. now subst.
  - intros [->|H]; [|auto]. now rewrite String.eqb_refl in E.
Qed.

Lemma fieldMapping_canonical key :
  isCanonicalField key = true -> JS.get fieldMapping key = JS.Own key.
Proof.
  intros H. apply existsb_eqb_In in H.
  unfold JS.get, fieldMapping. now rewrite diagonal_found.
Qed.

Lemma fieldMapping_own key column :
  JS.get fieldMapping key = JS.Own column ->
  column = key /\ isCanonicalField key = true.
Proof.
  intros H. pose proof (get_cases fieldMapping key) as Hc.
  rewrite H in Hc. apply diagonal_own in Hc as [-> Hin].
  split; [reflexivity|]. now apply existsb_eqb_In.
Qed.

Lemma canonical_not_reserved key :
  isCanonicalField key = true -> isReserved key = false.
Proof.
  assert (H : forallb (fun c => negb (isReserved c)) textColumns = true)
    by reflexivity.
  rewrite forallb_forall in H. intros Hk.
  apply existsb_eqb_In in Hk. apply H in Hk. now apply negb_true_iff.
Qed.



Lemma countWhen_counts (P : Medicine -> Prop) condition l :
  (forall r, SQLite.isTrue (condition r) = true <-> P r) ->
  counts P l (countWhen condition l).
Proof.
  intros H. unfold countWhen.
  induction l as [|r l IH]; simpl; [constructor|].
  destruct (SQLite.isTrue (condition r)) eqn:E.
  - simpl. apply counts_in; [now apply H|assumption].
  - apply counts_out; [|assumption].
    intros HP. apply H in HP. congruence.
Qed.

Lemma counts_unique P l n m : counts P l n -> counts P l m -> n = m.
Proof.
  intros Hn. revert m.
  induction Hn; intros m Hm; inversion Hm; subst;
    try reflexivity; try contradiction; auto.
Qed.

Lemma equals_isTrue column text r :
  SQLite.isTrue (equals column text r) = true <->
  field r column = Some text.
Proof.
  unfold equals. destruct (field r column) as [v|]; simpl.
  - split.
    + destruct (String.eqb text v) eqn:E; [|discriminate].
      apply String.eqb_eq in E. now subst.
    + intros [= ->]. now rewrite String.eqb_refl.
  - split; discriminate.
Qed.

Lemma isLike_isTrue keyword r :
  literal keyword = true ->
  SQLite.isTrue (isLike "medicineStatus" ("%" ++ keyword ++ "%") r) = true
  <-> statusMentions keyword r.
Proof.
  intros Hlit. unfold isLike, statusMentions.
  destruct (field r "medicineStatus") as [v|];
    cbn [option_map SQLite.isTrue].
  - split.
    + intros H. exists v. split; [reflexivity|].
      apply like_occurs; [assumption|].
      now destruct (SQLite.like ("%" ++ keyword ++ "%") v).
    + intros (t & [= <-] & Ht).
      apply (like_occurs _ _ Hlit) in Ht. now rewrite Ht.
  - split; [discriminate|]. intros (t & Ht & _). discriminate.
Qed.

Lemma ceilOfQuotient_eq total pageSize_ :
  (0 < pageSize_)%Z ->
  ceilOfQuotient total pageSize_ = ((total + pageSize_ - 1) / pageSize_)%Z.
Proof.
  intros Hp. unfold ceilOfQuotient.
  destruct pageSize_ as [|p|p]; try lia.
  unfold Qceiling, Qfloor, Qdiv, Qinv, Qmult, Qopp, inject_Z. simpl.
  rewrite Z.mul_1_r.
  apply Z.div_unique with (r := (Z.pos p - 1 - (- total) mod Z.pos p)%Z).
  - left. pose proof (Z.mod_pos_bound (- total) (Z.pos p)). lia.
  - pose proof (Z.div_mod (- total) (Z.pos p)). lia.
Qed.

Lemma processRow_accepted rejects row w w1 :
  processRow rejects row w = (Success tt, w1) ->
  List.length (rows (db w1)) = S (List.length (rows (db w))).
Proof.
  unfold processRow, validateRow, insertRow, Effect.flatMap, Effect.succeed,
    Effect.fail.
  destruct (insertMedicineSchema_parse (transformRow row)) as [v|];
    [|discriminate].
  destruct (rejects (db w) v || idTaken (db w) (id (rowOf (db w) v)));
    [discriminate|].
  intros [= <-]. simpl. rewrite length_app. simpl. lia.
Qed.

(** Each accepted row is stored, whatever happened to the others. *)
Lemma batch_stored rejects w records s f w' :
  batch rejects w records s f w' ->
  List.length (rows (db w')) = List.length (rows (db w)) + s.
Proof.
  induction 1 as [w | w w1 w' row rest s f Hrow _ IH
                    | w w1 w' row rest s f e Hrow _ IH].
  - lia.
  - apply processRow_accepted in Hrow. lia.
  - apply processRow_failure in Hrow. destruct Hrow as [-> _]. exact IH.
Qed.

Lemma printedErrors_map l : printedErrors (List.map LogError l) = l.
Proof. induction l; simpl; congruence. Qed.

Lemma printedErrors_app a b :
  printedErrors (a ++ b) = printedErrors a ++ printedErrors b.
Proof. unfold printedErrors. apply flat_map_app. Qed.

Lemma printedErrors_report result :
  printedErrors (report result) = firstn 5 (errors result).
Proof.
  unfold report. destruct (errors result) as [|e l] eqn:E.
  - reflexivity.
  - change (0 <? List.length (e :: l)) with true. cbv iota.
    change (printedErrors
              (LogComplete (successCount result) (errorCount result)
               :: LogErrorsHeader :: ?x))
      with (printedErrors x).
    rewrite printedErrors_app, printedErrors_map.
    destruct (5 <? List.length (e :: l)); apply app_nil_r.
Qed.

End ServerFacts.

(* ================================================================== *)
(** ** The import run *)

Lemma importCSV_read_failure readText parse rejects filename w :
  readText filename = None ->
  importCSV readText parse rejects filename w
  = (Failure CSVReadError,
     {| db := db w; console := console w ++ [LogReading filename] |}).
Proof.
  intros H. unfold importCSV, readCSVFile, Effect.flatMap, Effect.log,
    Effect.fail.
  now rewrite H.
Qed.

Lemma importCSV_parse_failure readText parse rejects filename content w :
  readText filename = Some content ->
  parse content = None ->
  importCSV readText parse rejects filename w
  = (Failure CSVParseError,
     {| db := db w;
        console := console w ++ [LogReading filename; LogParsing] |}).
Proof.
  intros Hr Hp. unfold importCSV, readCSVFile, parseCSV.
  rewrite Hr. unfold Effect.flatMap, Effect.log, Effect.succeed. cbn [db console].
  rewrite Hp. unfold Effect.fail. now rewrite <- app_assoc.
Qed.

Lemma processRow_consistent rejects row w x w1 :
  consistent (db w) ->
  processRow rejects row w = (x, w1) -> consistent (db w1).
Proof.
  intros Hc. unfold processRow, validateRow, insertRow, Effect.flatMap,
    Effect.succeed, Effect.fail.
  destruct (insertMedicineSchema_parse (transformRow row)) as [v|];
    [|now intros [= _ <-]].
  destruct (rejects (db w) v || idTaken (db w) (id (rowOf (db w) v)));
    intros [= _ <-]; [assumption|].
  unfold consistent in *. cbn [db rows sequence].
  apply Forall_app. split.
  - revert Hc. apply Forall_impl. intros r Hr.
    etransitivity; [exact Hr|apply Z.le_max_l].
  - constructor; [apply Z.le_max_r|constructor].
Qed.

(** C1: an import run whose CSV parses into N records, of which exactly
    M fail the per-row transform/validate/insert pipeline, returns an
    outcome with successCount = N - M and errorCount = M; every record
    contributes exactly one result. *)
Theorem importCSV_counts readText parse rejects filename content records
  (w w1 : World) (s M : nat) :
  readText filename = Some content ->
  parse content = Some records ->
  batch rejects
    {| db := db w;
       console := console w ++ [LogReading filename; LogParsing;
                                LogProcessing (List.length records)] |}
    records s M w1 ->
  exists outcome w',
    importCSV readText parse rejects filename w = (Success outcome, w')
    /\ successCount outcome = List.length records - M
    /\ errorCount outcome = M
    /\ successCount outcome + errorCount outcome = List.length records.
Proof.
  intros Hread Hparse Hbatch.
  destruct (importCSV_run _ _ _ _ _ _ _ _ _ _ Hread Hparse Hbatch)
    as (outcome & Hrun & Hs & Hf & _).
  apply batch_length in Hbatch.
  exists outcome. eexists. split; [exact Hrun|]. lia.
Qed.

Lemma importCSV_counts_witness :
  exists outcome w',
    importCSV sampleFiles (parseTo sampleRecords) (roomFor 1)
      "medicines.csv" emptyWorld = (Success outcome, w')
    /\ successCount outcome = 2 - 1
    /\ errorCount outcome = 1
    /\ successCount outcome + errorCount outcome = 2.
Proof.
  eapply (importCSV_counts sampleFiles (parseTo sampleRecords) (roomFor 1)
            "medicines.csv" "Category,Name of medicine" sampleRecords
            emptyWorld _ 1 1).
  - reflexivity.
  - reflexivity.
  - eapply batch_accepted; [reflexivity|].
    eapply batch_failed; [reflexivity|].
    apply batch_done.
Defined.

(** C2: a read failure or a parse failure fails the whole import and no
    outcome is produced (the store is untouched); once the file is read
    and parsed the run always produces an outcome: an error on one row
    is caught at that row, recorded, and every other row is still
    attempted and, when accepted, stored. *)
Theorem importCSV_failure_semantics readText parse rejects filename w :
  match readText filename with
  | None =>
      importCSV readText parse rejects filename w
      = (Failure CSVReadError,
         {| db := db w; console := console w ++ [LogReading filename] |})
  | Some content =>
      match parse content with
      | None =>
          importCSV readText parse rejects filename w
          = (Failure CSVParseError,
             {| db := db w;
                console := console w ++ [LogReading filename; LogParsing] |})
      | Some records =>
          exists outcome s f w1,
            batch rejects
              {| db := db w;
                 console := console w ++ [LogReading filename; LogParsing;
                                          LogProcessing (List.length records)] |}
              records s f w1
            /\ importCSV readText parse rejects filename w
               = (Success outcome,
                  {| db := db w1;
                     console := console w
                                ++ [LogReading filename; LogParsing;
                                    LogProcessing (List.length records)]
                                ++ report outcome |})
            /\ s + f = List.length records
            /\ successCount outcome = s
            /\ errorCount outcome = f
            /\ List.length (errors outcome) = f
            /\ Forall (fun e => exists row, In row records /\
                         (e = ValidationError row
                          \/ e = DatabaseInsertError row))
                      (errors outcome)
            /\ List.length (rows (db w1)) = List.length (rows (db w)) + s
      end
  end.
Proof.
  destruct (readText filename) as [content|] eqn:Hread.
  - destruct (parse content) as [records|] eqn:Hparse.
    + set (w0 := {| db := db w;
                    console := console w ++ [LogReading filename; LogParsing;
                                 LogProcessing (List.length records)] |}).
      destruct (batch_total rejects records w0) as (s & f & w1 & Hbatch).
      destruct (importCSV_run _ _ _ _ _ _ _ _ _ _ Hread Hparse Hbatch)
        as (outcome & Hrun & Hs & Hf & He & Hall).
      exists outcome, s, f, w1.
      pose proof (batch_length _ _ _ _ _ _ Hbatch).
      pose proof (batch_stored _ _ _ _ _ _ Hbatch).
      repeat split; assumption.
    + now apply importCSV_parse_failure with (content := content).
  - now apply importCSV_read_failure.
Qed.




(** C10: validation never fails for want of a field.  Whatever the row,
    [validateRow] accepts what [transformRow] made of it; and a row in
    which no header maps to a column, or whose mapped cells are all
    empty, is - the store taking the write - stored as a record of
    nulls under a fresh identity and counted as a success. *)
Theorem validateRow_accepts_every_row rejects row w :
  exists validated,
    validateRow (transformRow row) row w = (Success validated, w)
    /\ (blankRow row ->
        consistent (db w) ->
        rejects (db w) validated = false ->
        let stored :=
          {| db := {| rows := rows (db w)
                              ++ [nullRecord (sequence (db w) + 1)];
                      sequence := (sequence (db w) + 1)%Z |};
             console := console w |} in
        processRow rejects row w = (Success tt, stored)
        /\ processAllRows rejects (E := ImportError) [row] w
           = (Success {| successCount := 1; errorCount := 0; errors := [] |},
              stored)).
Proof.
  exists (flat_map (pick (transformRow row)) ("id" :: textColumns)).
  pose proof (parse_plain _ (transformRow_plain row)) as Hparse.
  split.
  - unfold validateRow. now rewrite Hparse.
  - intros Hblank Hcons Hrej stored.
    assert (Hrow : processRow rejects row w = (Success tt, stored)).
    { unfold processRow, validateRow, Effect.flatMap, Effect.succeed.
      rewrite Hparse. unfold insertRow.
      rewrite Hrej, (rowOf_blank _ _ Hblank).
      change (id (nullRecord (sequence (db w) + 1)))
        with (sequence (db w) + 1)%Z.
      rewrite (fresh_identity _ Hcons). subst stored. cbn [orb].
      now rewrite Z.max_r by lia. }
    split; [exact Hrow|].
    destruct (processAllRows_batch rejects ImportError w [row] 1 0 stored)
      as (outcome & Hrun & Hs & Hf & He & _).
    { eapply batch_accepted; [exact Hrow|constructor]. }
    rewrite Hrun. destruct outcome as [sc ec es]. simpl in *. subst.
    now destruct es.
Qed.

Lemma validateRow_accepts_every_row_witness :
  processRow neverRejects
    [("Category", ""); ("Comment", "not a column")] emptyWorld
  = (Success tt,
     {| db := {| rows := [nullRecord 1]; sequence := 1%Z |};
        console := [] |}).
Proof.
  destruct (validateRow_accepts_every_row neverRejects
              [("Category", ""); ("Comment", "not a column")] emptyWorld)
    as (validated & _ & H).
  refine (proj1 (H _ _ _)).
  - intros k v [[= <- <-]|[[= <- <-]|[]]]; [now right|now left].
  - constructor.
  - reflexivity.
Defined.

(* ================================================================== *)
(** ** Header normalisation *)

(** Normalising twice is not always normalising once: when removing the
    parentheses uncovers a TAB, the second pass trims it away. *)
Lemma cleanHeader_not_idempotent :
  cleanHeader (cleanHeader tabInParentheses) <> cleanHeader tabInParentheses.
Proof. vm_compute. discriminate. Qed.

(** C9 (as amended): for every raw header H whose normalised form has no
    leading or trailing white space - in particular for every H whose
    only white space is spaces and line feeds -
    normalize(normalize(H)) = normalize(H). *)
Theorem cleanHeader_idempotent (H : string) :
  JS.trim (cleanHeader H) = cleanHeader H ->
  cleanHeader (cleanHeader H) = cleanHeader H.
Proof. intros Htrim. now rewrite cleanHeader_twice. Qed.

Lemma cleanHeader_idempotent_witness :
  JS.trim (cleanHeader "Generic or Hybrid") = cleanHeader "Generic or Hybrid"
  /\ cleanHeader (cleanHeader "Generic or Hybrid")
     = cleanHeader "Generic or Hybrid".
Proof.
  split; [reflexivity|].
  apply (cleanHeader_idempotent "Generic or Hybrid"). reflexivity.
Defined.

Lemma cleanHeader_idempotent_plain_spacing (H : string) :
  JS.all plainSpacing H = true ->
  cleanHeader (cleanHeader H) = cleanHeader H.
Proof.
  intros Hs. rewrite cleanHeader_twice.
  now apply cleanHeader_plain_spacing_trimmed.
Qed.

Example cleanHeader_generic_or_hybrid :
  JS.get csvToTableMapping (cleanHeader "Generic or Hybrid")
  = JS.Own "genericOrHybrid".
Proof. reflexivity. Qed.

(* ================================================================== *)
(** ** The filter builder *)



(** The condition built for [category=u_a] holds of a row whose
    category is "Human", in which the text "u_a" does not occur. *)
Lemma like_is_not_literal_substring :
  buildWhereClause [("category", "u_a")]
  = Some (And [Like (Column "category") "%u_a%"])
  /\ eval (withCategory 1 "Human") (Like (Column "category") "%u_a%")
     <> option_map (includes "u_a") (field (withCategory 1 "Human") "category").
Proof. split; [reflexivity|]. vm_compute. discriminate. Qed.

Lemma fieldCondition_unknown key v :
  isCanonicalField key = false ->
  ~ In key JS.prototypeMembers ->
  fieldCondition (key, v) = [].
Proof.
  intros Hc Hp. unfold fieldCondition.
  destruct (isReserved key || negb (JS.truthy v)); [reflexivity|].
  pose proof (get_cases fieldMapping key) as Hget.
  destruct (JS.get fieldMapping key) as [c|m|] eqn:E.
  - apply fieldMapping_own in E as [_ E]. congruence.
  - now destruct Hget as (_ & _ & Hin).
  - reflexivity.
Qed.

Lemma fieldCondition_wanted key v :
  ~ In key JS.prototypeMembers ->
  fieldCondition (key, v)
  = if wanted (key, v) then [likeOf (key, v)] else [].
Proof.
  intros Hp. unfold wanted. cbn [fst snd].
  destruct (isCanonicalField key) eqn:Hc.
  - unfold fieldCondition.
    rewrite (canonical_not_reserved _ Hc), (fieldMapping_canonical _ Hc).
    now destruct (JS.truthy v).
  - now apply fieldCondition_unknown.
Qed.

Lemma fieldConditions_exact queryParams :
  (forall key v, In (key, v) queryParams -> ~ In key JS.prototypeMembers) ->
  flat_map fieldCondition queryParams
  = List.map likeOf (filter wanted queryParams).
Proof.
  induction queryParams as [|[key v] q IH]; intros H; [reflexivity|].
  cbn [flat_map filter].
  rewrite (fieldCondition_wanted key v (H key v (or_introl eq_refl))).
  rewrite IH by (intros k u Hin; apply (H k u); now right).
  now destruct (wanted (key, v)).
Qed.

(** Without a name taken from the prototype the clause can be run. *)
Lemma buildWhereClause_runnable queryParams :
  (forall key v, In (key, v) queryParams -> ~ In key JS.prototypeMembers) ->
  runnable (buildWhereClause queryParams) = true.
Proof.
  intros H. unfold buildWhereClause.
  destruct (conditionsOf queryParams) as [|c l] eqn:E; [reflexivity|].
  rewrite <- E. clear E c l. cbn [runnable bindable].
  unfold conditionsOf. rewrite (fieldConditions_exact _ H).
  repeat rewrite forallb_app.
  assert (Hf : forallb bindable (List.map likeOf (filter wanted queryParams))
               = true).
  { apply forallb_forall. intros c Hc.
    apply in_map_iff in Hc as (entry & <- & _). reflexivity. }
  rewrite Hf. unfold dateCondition, searchCondition.
  repeat match goal with
         | |- context [JS.truthy ?x] => destruct (JS.truthy x)
         end; reflexivity.
Qed.

(** C5 (as amended): for every parameter whose name is a canonical field
    and whose value is non-empty the builder adds the condition
    [field LIKE '%value%'], with the store's LIKE semantics: [%] and [_]
    in the value are wildcards, and a value free of them matches where
    it occurs up to the case of ASCII letters.  It adds such a condition
    exactly for those parameters: a reserved name, an empty value and an
    unrecognised name - one that no object inherits - never yield a
    per-field condition; they are ignored, and the clause built can be
    run. *)
Theorem fieldCondition_spec (queryParams : QueryParams) :
  (forall key v,
     In (key, v) queryParams -> isCanonicalField key = true -> v <> "" ->
     In (Like (Column key) ("%" ++ v ++ "%")) (conditionsOf queryParams))
  /\ (forall key v,
        isReserved key = true \/ v = "" -> fieldCondition (key, v) = [])
  /\ (forall column pattern,
        In (Like (Column column) pattern)
           (flat_map fieldCondition queryParams) ->
        exists v, In (column, v) queryParams
                  /\ isCanonicalField column = true
                  /\ isReserved column = false
                  /\ v <> ""
                  /\ pattern = ("%" ++ v ++ "%")%string)
  /\ (forall r column v,
        eval r (Like (Column column) ("%" ++ v ++ "%"))
        = option_map (SQLite.like ("%" ++ v ++ "%")) (field r column))
  /\ (forall v text,
        literal v = true ->
        SQLite.like ("%" ++ v ++ "%") text = true <-> occursNoCase v text)
  /\ (forall key v,
        isCanonicalField key = false ->
        ~ In key JS.prototypeMembers ->
        fieldCondition (key, v) = [])
  /\ ((forall key v,
         In (key, v) queryParams -> ~ In key JS.prototypeMembers) ->
      flat_map fieldCondition queryParams
      = List.map likeOf (filter wanted queryParams)
      /\ runnable (buildWhereClause queryParams) = true).
Proof.
  split; [|split; [|split; [|split; [|split; [|split]]]]].
  - intros key v Hin Hcanon Hv.
    unfold conditionsOf. apply in_or_app. left.
    apply in_flat_map. exists (key, v). split; [assumption|].
    unfold fieldCondition.
    rewrite (canonical_not_reserved _ Hcanon).
    apply truthy_iff in Hv. rewrite Hv.
    rewrite (fieldMapping_canonical _ Hcanon). now left.
  - intros key v [Hr| ->]; unfold fieldCondition.
    + now rewrite Hr.
    + simpl. now rewrite orb_true_r.
  - intros column pattern Hin.
    apply in_flat_map in Hin as ([key v] & Hin & Hc).
    unfold fieldCondition in Hc.
    destruct (isReserved key) eqn:Hr; [contradiction|].
    destruct (JS.truthy v) eqn:Hv; [|contradiction].
    cbn [orb negb] in Hc.
    destruct (JS.get fieldMapping key) as [c|m|] eqn:Hget;
      try contradiction.
    + destruct Hc as [[= <- <-]|[]].
      apply fieldMapping_own in Hget as [-> Hcanon].
      exists v. apply truthy_iff in Hv. auto.
    + destruct Hc as [Hc|[]]. discriminate Hc.
  - reflexivity.
  - intros v text. apply like_occurs.
  - exact fieldCondition_unknown.
  - intros H. split.
    + now apply fieldConditions_exact.
    + now apply buildWhereClause_runnable.
Qed.

Lemma fieldCondition_spec_witness :
  In (Like (Column "category") "%Human%")
     (conditionsOf [("page", "2"); ("category", "Human")]).
Proof.
  apply (proj1 (fieldCondition_spec [("page", "2"); ("category", "Human")])
           "category" "Human").
  - right. now left.
  - reflexivity.
  - discriminate.
Defined.

(* ================================================================== *)
(** ** Pagination *)

(** The page data as a function of page, page size and total, and the
    slice a page request reads. *)
Theorem paginate_spec (page_ pageSize_ total : Z) :
  (1 <= page_)%Z -> (1 <= pageSize_ <= 100)%Z -> (0 <= total)%Z ->
  let p := paginate page_ pageSize_ total in
  totalPages p = Z.max 1 (ceilOfQuotient total pageSize_)
  /\ ceilOfQuotient total pageSize_
     = ((total + pageSize_ - 1) / pageSize_)%Z
  /\ hasNextPage p = (page_ <? totalPages p)%Z
  /\ hasPreviousPage p = (page_ >? 1)%Z
  /\ (forall d whereClause,
        runnable whereClause = true ->
        getPaginatedData d whereClause page_ pageSize_
        = Success
            (firstn (Z.to_nat pageSize_)
               (skipn (Z.to_nat ((page_ - 1) * pageSize_))
                  (filter (keeps whereClause) (rows d))))).
Proof.
  intros Hpage Hsize Htotal p. subst p.
  assert (Hceil := ceilOfQuotient_eq total pageSize_ ltac:(lia)).
  split; [|split; [exact Hceil|split; [reflexivity|split]]].
  - unfold paginate. cbn [totalPages]. rewrite Hceil.
    destruct (total =? 0)%Z eqn:E.
    + apply Z.eqb_eq in E. subst.
      rewrite Z.div_small by lia. reflexivity.
    + apply Z.eqb_neq in E.
      assert (1 <= (total + pageSize_ - 1) / pageSize_)%Z
        by (apply Z.div_le_lower_bound; lia).
      lia.
  - unfold paginate. cbn [hasPreviousPage]. now rewrite Z.gtb_ltb.
  - intros d whereClause Hrun. unfold getPaginatedData, limit, offset.
    rewrite Hrun.
    destruct (pageSize_ <? 0)%Z eqn:E; [apply Z.ltb_lt in E; lia|].
    reflexivity.
Qed.

Lemma paginate_spec_witness :
  totalPages (paginate 2 10 25) = 3%Z
  /\ hasNextPage (paginate 2 10 25) = true
  /\ hasPreviousPage (paginate 2 10 25) = true.
Proof.
  destruct (paginate_spec 2 10 25) as (Ht & _ & Hn & Hp & _); try lia.
  rewrite Hn, Hp, Ht. repeat split; reflexivity.
Defined.

Example paginate_last_page : hasNextPage (paginate 3 10 25) = false.
Proof. reflexivity. Qed.

Example paginate_empty_table : totalPages (paginate 1 10 0) = 1%Z.
Proof. reflexivity. Qed.

(** What the handler answers when its clause can be run. *)
Lemma getMedicines_runnable d query :
  runnable (buildWhereClause (query_params query)) = true ->
  getMedicines d query
  = Success
      {| data := pageData d (buildWhereClause (query_params query))
                   (orElse (query_page query) 1%Z)
                   (orElse (query_pageSize query) 50%Z);
         pagination :=
           paginate (orElse (query_page query) 1%Z)
             (orElse (query_pageSize query) 50%Z)
             (Z.of_nat
                (List.length
                   (filter (keeps (buildWhereClause (query_params query)))
                           (rows d)))) |}.
Proof.
  intros Hrun. unfold getMedicines, pageData, getTotalCount, getPaginatedData.
  now rewrite Hrun.
Qed.



Example getMedicines_last_page :
  exists result,
    getMedicines (tableOf 25) (pageQuery 3 10) = Success result
    /\ totalPages (pagination result) = 3%Z
    /\ hasNextPage (pagination result) = false
    /\ List.length (data result) = 5.
Proof. eexists. split; [reflexivity|]. repeat split. Qed.

Example getMedicines_empty_table :
  exists result,
    getMedicines (tableOf 0) (pageQuery 1 10) = Success result
    /\ totalRecords (pagination result) = 0%Z
    /\ totalPages (pagination result) = 1%Z
    /\ hasNextPage (pagination result) = false.
Proof. eexists. split; [reflexivity|]. repeat split. Qed.

(* ================================================================== *)
(** ** Distinct values *)

(** For a canonical field the request succeeds with the values in
    strictly increasing order, hence without duplicates, none of them
    empty, and exactly those found in the column. *)
Lemma getFieldValues_canonical d name :
  isCanonicalField name = true ->
  getFieldValues d name
  = Success {| fieldName := name; values := selectDistinct d name |}.
Proof.
  intros H. unfold getFieldValues. now rewrite fieldMapping_canonical.
Qed.

Lemma selectDistinct_spec d column :
  StronglySorted String_as_OT.lt (selectDistinct d column)
  /\ NoDup (selectDistinct d column)
  /\ ~ In "" (selectDistinct d column)
  /\ (forall v, In v (selectDistinct d column) <->
                v <> "" /\ exists r, In r (rows d)
                                     /\ field r column = Some v).
Proof.
  unfold selectDistinct.
  pose proof (orderedDistinct_sorted (nonBlank d column)) as Hs.
  split; [exact Hs|]. split; [now apply sorted_NoDup|].
  split.
  - rewrite orderedDistinct_In, nonBlank_In. now intros [H _].
  - intros v. now rewrite orderedDistinct_In, nonBlank_In.
Qed.

(** A name that is neither a canonical field nor a member every object
    inherits is turned down. *)
Lemma getFieldValues_unknown d name :
  isCanonicalField name = false ->
  ~ In name JS.prototypeMembers ->
  getFieldValues d name
  = Failure {| status := 400; message := "Invalid field name" |}.
Proof.
  intros Hc Hp. unfold getFieldValues.
  pose proof (get_cases fieldMapping name) as Hget.
  destruct (JS.get fieldMapping name) as [c|m|] eqn:E.
  - apply fieldMapping_own in E as [_ E]. congruence.
  - now destruct Hget as (_ & _ & Hin).
  - reflexivity.
Qed.

(** C7: the field name "constructor" is not a canonical field, yet the
    request for its distinct values is not turned down as an invalid
    field: the guard finds the inherited member and lets it through. *)
Theorem getFieldValues_inherited_member (d : Database) :
  isCanonicalField "constructor" = false
  /\ getFieldValues d "constructor"
     <> Failure {| status := 400; message := "Invalid field name" |}
  /\ getFieldValues d "constructor"
     = Failure {| status := 500; message := "Database error occurred" |}.
Proof. repeat split. discriminate. Qed.

(* ================================================================== *)
(** ** Statistics *)

(** One stored row whose status begins with the keyword. *)
Lemma authorised_is_exact_match :
  let d := {| rows := [withStatus 1 "Authorised (suspended)"];
              sequence := 1%Z |} in
  authorised (getStats d) = 0
  /\ String.prefix "Authorised" "Authorised (suspended)" = true
  /\ countWhen (isLike "medicineStatus" "%authorised%") (rows d) = 1.
Proof. repeat split. Qed.

(** C8 (as amended): the statistics are the number of rows, the rows
    whose category is exactly "Human" and exactly "Veterinary", the
    rows whose medicine status is exactly "Authorised", and the rows
    whose medicine status mentions "withdrawn" and "refused" anywhere,
    up to the case of ASCII letters. *)
Theorem getStats_spec (d : Database) :
  totalMedicines (getStats d) = List.length (rows d)
  /\ counts (categoryIs "Human") (rows d) (human (getStats d))
  /\ counts (categoryIs "Veterinary") (rows d) (veterinary (getStats d))
  /\ counts (statusIs "Authorised") (rows d) (authorised (getStats d))
  /\ counts (statusMentions "withdrawn") (rows d) (withdrawn (getStats d))
  /\ counts (statusMentions "refused") (rows d) (refused (getStats d)).
Proof.
  unfold getStats. cbn [totalMedicines human veterinary authorised
                          withdrawn refused].
  repeat split.
  - apply countWhen_counts. intros r. apply equals_isTrue.
  - apply countWhen_counts. intros r. apply equals_isTrue.
  - apply countWhen_counts. intros r. apply equals_isTrue.
  - apply countWhen_counts. intros r.
    now apply (isLike_isTrue "withdrawn").
  - apply countWhen_counts. intros r.
    now apply (isLike_isTrue "refused").
Qed.

(* ================================================================== *)
(** ** Further properties: header normalisation and the dictionary *)

Lemma settled_alphabet c :
  settled c = true ->
  negb (JS.isSpace c) && negb (JS.isLF c) && negb (JS.isParenOrSlash c)
  && negb (isUpperAscii c) = true.
Proof.
  destruct c as [[] [] [] [] [] [] [] []];
    vm_compute; intros H; solve [reflexivity | discriminate H].
Qed.

(** X1: a normalised header contains no space, no line feed, no
    parenthesis, no slash and no upper-case ASCII letter. *)
Theorem cleanHeader_alphabet (raw : string) :
  JS.all (fun c => negb (JS.isSpace c) && negb (JS.isLF c)
                   && negb (JS.isParenOrSlash c) && negb (isUpperAscii c))
         (cleanHeader raw) = true.
Proof.
  apply all_impl with (p := settled); [exact settled_alphabet|].
  apply cleanHeader_settled.
Qed.

Lemma lowerChar_transparent c :
  JS.isWhiteSpace (JS.lowerChar c) = JS.isWhiteSpace c
  /\ JS.isLF (JS.lowerChar c) = JS.isLF c
  /\ JS.isSpace (JS.lowerChar c) = JS.isSpace c
  /\ JS.isParenOrSlash (JS.lowerChar c) = JS.isParenOrSlash c
  /\ JS.lowerChar (JS.lowerChar c) = JS.lowerChar c.
Proof. destruct c as [[] [] [] [] [] [] [] []]; vm_compute; auto. Qed.

Lemma map_empty f s : JS.map f s = EmptyString -> s = EmptyString.
Proof. now destruct s. Qed.

Lemma trimStart_lower s :
  JS.trimStart (JS.toLowerCase s) = JS.toLowerCase (JS.trimStart s).
Proof.
  unfold JS.toLowerCase. induction s as [|c s IH]; simpl; [reflexivity|].
  destruct (lowerChar_transparent c) as (-> & _).
  now destruct (JS.isWhiteSpace c).
Qed.

Lemma trimEnd_lower s :
  JS.trimEnd (JS.toLowerCase s) = JS.toLowerCase (JS.trimEnd s).
Proof.
  unfold JS.toLowerCase. induction s as [|c s IH]; simpl; [reflexivity|].
  rewrite IH. destruct (lowerChar_transparent c) as (-> & _).
  destruct (JS.trimEnd s) as [|d t]; simpl; [|reflexivity].
  now destruct (JS.isWhiteSpace c).
Qed.

Lemma replaceNewlines_lower s :
  JS.replaceNewlines (JS.toLowerCase s)
  = JS.toLowerCase (JS.replaceNewlines s).
Proof.
  unfold JS.replaceNewlines, JS.toLowerCase.
  induction s as [|c s IH]; simpl; [reflexivity|].
  rewrite IH. destruct (lowerChar_transparent c) as (_ & -> & _).
  now destruct (JS.isLF c).
Qed.

Lemma replaceSpaceRuns_lower s :
  JS.replaceSpaceRuns (JS.toLowerCase s)
  = JS.toLowerCase (JS.replaceSpaceRuns s).
Proof.
  unfold JS.toLowerCase. induction s as [|c s IH]; [reflexivity|].
  cbn [JS.map JS.replaceSpaceRuns].
  destruct (lowerChar_transparent c) as (_ & _ & -> & _).
  destruct (JS.isSpace c).
  - destruct s as [|d s']; [reflexivity|].
    cbn [JS.map] in *.
    destruct (lowerChar_transparent d) as (_ & _ & -> & _).
    destruct (JS.isSpace d); [exact IH|].
    now rewrite IH.
  - now rewrite IH.
Qed.

Lemma removeParens_lower s :
  JS.removeParens (JS.toLowerCase s) = JS.toLowerCase (JS.removeParens s).
Proof.
  unfold JS.removeParens, JS.toLowerCase.
  induction s as [|c s IH]; simpl; [reflexivity|].
  destruct (lowerChar_transparent c) as (_ & _ & _ & -> & _).
  destruct (JS.isParenOrSlash c); simpl; now rewrite IH.
Qed.

Lemma toLowerCase_twice s :
  JS.toLowerCase (JS.toLowerCase s) = JS.toLowerCase s.
Proof.
  unfold JS.toLowerCase. induction s as [|c s IH]; simpl; [reflexivity|].
  destruct (lowerChar_transparent c) as (_ & _ & _ & _ & ->).
  now rewrite IH.
Qed.

Lemma cleanHeader_lower raw :
  cleanHeader (JS.toLowerCase raw) = cleanHeader raw.
Proof.
  unfold cleanHeader, JS.trim.
  rewrite trimStart_lower, trimEnd_lower, replaceNewlines_lower,
    replaceSpaceRuns_lower, removeParens_lower.
  apply toLowerCase_twice.
Qed.

(** X2: for headers made of code units below 256 (ASCII and Latin-1,
    where lower-casing works letter by letter) headers are matched
    without regard to case: two such raw headers with the same
    lower-case form normalise to the same key. *)
Theorem cleanHeader_ignores_case (a b : string) :
  JS.toLowerCase a = JS.toLowerCase b -> cleanHeader a = cleanHeader b.
Proof.
  intros H. rewrite <- (cleanHeader_lower a), <- (cleanHeader_lower b).
  now rewrite H.
Qed.

Lemma cleanHeader_ignores_case_witness :
  cleanHeader "MEDICINE Status" = cleanHeader "Medicine status".
Proof. apply cleanHeader_ignores_case. reflexivity. Defined.

Lemma trimStart_padding pad s :
  JS.all JS.isWhiteSpace pad = true ->
  JS.trimStart (pad ++ s) = JS.trimStart s.
Proof.
  induction pad as [|c pad IH]; simpl; [reflexivity|].
  intros H. apply andb_prop in H as [Hc Hp]. rewrite Hc. auto.
Qed.

Lemma trimEnd_blank pad :
  JS.all JS.isWhiteSpace pad = true -> JS.trimEnd pad = EmptyString.
Proof.
  induction pad as [|c pad IH]; simpl; [reflexivity|].
  intros H. apply andb_prop in H as [Hc Hp]. now rewrite (IH Hp), Hc.
Qed.

Lemma trimEnd_padding pad s :
  JS.all JS.isWhiteSpace pad = true ->
  JS.trimEnd (s ++ pad) = JS.trimEnd s.
Proof.
  intros H. induction s as [|c s IH]; simpl.
  - now apply trimEnd_blank.
  - now rewrite IH.
Qed.

Lemma trim_padding_right pad s :
  JS.all JS.isWhiteSpace pad = true ->
  JS.trim (s ++ pad) = JS.trim s.
Proof.
  intros H. unfold JS.trim. induction s as [|c s IH]; simpl.
  - assert (E : JS.trimStart pad = EmptyString).
    { clear -H. induction pad as [|c pad IH]; simpl; [reflexivity|].
      simpl in H. apply andb_prop in H as [Hc Hp]. rewrite Hc. auto. }
    now rewrite E.
  - destruct (JS.isWhiteSpace c); [exact IH|].
    apply (trimEnd_padding pad (String c s) H).
Qed.

(** X3: white space around a raw header does not matter: padding it on
    either side with white space of any kind leaves the normalised key
    unchanged. *)
Theorem cleanHeader_ignores_padding (before after raw : string) :
  JS.all JS.isWhiteSpace before = true ->
  JS.all JS.isWhiteSpace after = true ->
  cleanHeader (before ++ raw ++ after) = cleanHeader raw.
Proof.
  intros Hb Ha. unfold cleanHeader.
  assert (E : JS.trim (before ++ raw ++ after) = JS.trim raw).
  { rewrite <- (trim_padding_right after raw Ha).
    unfold JS.trim. now rewrite trimStart_padding. }
  now rewrite E.
Qed.

Lemma cleanHeader_ignores_padding_witness :
  cleanHeader (String "009" " " ++ "Category" ++ String "013" (String "010" ""))
  = cleanHeader "Category".
Proof. apply cleanHeader_ignores_padding; reflexivity. Defined.

Lemma distinctb_NoDup l : distinctb l = true -> NoDup l.
Proof.
  induction l as [|x l IH]; simpl; [constructor|].
  intros H. apply andb_prop in H as [Hx Hl]. constructor; [|auto].
  apply negb_true_iff in Hx. intros Hin.
  apply existsb_eqb_In in Hin. congruence.
Qed.

(** X4: the header dictionary fits the normaliser and the table: every
    key is its own normal form, so a header can reach it; no two keys
    are equal and no two lead to the same column; and every text column
    of the table is reached by the normal form of some key. *)
Theorem csvToTableMapping_fits :
  (forall key column,
     In (key, column) csvToTableMapping ->
     cleanHeader key = key
     /\ JS.get csvToTableMapping (cleanHeader key) = JS.Own column)
  /\ NoDup (List.map fst csvToTableMapping)
  /\ NoDup (List.map snd csvToTableMapping)
  /\ (forall column,
        isCanonicalField column = true ->
        exists key, JS.get csvToTableMapping (cleanHeader key)
                    = JS.Own column).
Proof.
  assert (Hall : forall key column,
             In (key, column) csvToTableMapping ->
             cleanHeader key = key
             /\ JS.get csvToTableMapping (cleanHeader key) = JS.Own column).
  { assert (H : forallb (fun entry =>
                  String.eqb (cleanHeader (fst entry)) (fst entry)
                  && match JS.get csvToTableMapping (cleanHeader (fst entry))
                     with
                     | JS.Own c => String.eqb c (snd entry)
                     | _ => false
                     end) csvToTableMapping = true)
      by (vm_compute; reflexivity).
    rewrite forallb_forall in H. intros key column Hin.
    specialize (H _ Hin). cbn [fst snd] in H.
    apply andb_prop in H as [H1 H2]. apply String.eqb_eq in H1.
    split; [assumption|].
    destruct (JS.get csvToTableMapping (cleanHeader key)) as [c| |];
      try discriminate.
    apply String.eqb_eq in H2. now subst. }
  split; [exact Hall|].
  split; [apply distinctb_NoDup; vm_compute; reflexivity|].
  split; [apply distinctb_NoDup; vm_compute; reflexivity|].
  intros column Hc. apply existsb_eqb_In in Hc.
  rewrite <- csvToTableMapping_columns in Hc.
  apply in_map_iff in Hc as ([key c] & <- & Hin).
  exists key. now apply Hall.
Qed.

Lemma csvToTableMapping_fits_witness :
  cleanHeader "prime:_priority_medicine" = "prime:_priority_medicine"
  /\ JS.get csvToTableMapping (cleanHeader "prime:_priority_medicine")
     = JS.Own "primePriorityMedicine".
Proof.
  apply (proj1 csvToTableMapping_fits
           "prime:_priority_medicine" "primePriorityMedicine").
  unfold csvToTableMapping. do 24 right. now left.
Defined.

(* ================================================================== *)
(** ** Further properties: one row *)

Lemma ownProperty_set {A} (o : list (string * A)) k v k' :
  JS.ownProperty (JS.set o k v) k'
  = if String.eqb k k' then Some v else JS.ownProperty o k'.
Proof.
  induction o as [|[k0 v0] o IH]; simpl.
  - reflexivity.
  - destruct (String.eqb k0 k) eqn:E0; simpl.
    + apply String.eqb_eq in E0. subst k0.
      now destruct (String.eqb k k').
    + destruct (String.eqb k0 k') eqn:E1; [|exact IH].
      apply String.eqb_eq in E1. subst k0.
      rewrite String.eqb_sym in E0. now rewrite E0.
Qed.

Lemma transformCell_lookup acc cell column :
  isCanonicalField column = true ->
  JS.ownProperty (transformCell acc cell) column
  = if mapsTo column cell then Some (cellValue (snd cell))
    else JS.ownProperty acc column.
Proof.
  intros Hc. destruct cell as [rawKey rawVal].
  unfold transformCell, mapsTo. cbn [fst snd].
  pose proof (get_cases csvToTableMapping (cleanHeader rawKey)) as Hget.
  destruct (JS.get csvToTableMapping (cleanHeader rawKey)) as [c|m|].
  - apply ownProperty_set.
  - destruct Hget as (-> & _ & Hm). rewrite ownProperty_set.
    apply member_key_foreign in Hm as [_ Hm].
    destruct (String.eqb (JS.memberToString (cleanHeader rawKey)) column)
      eqn:E; [|reflexivity].
    apply String.eqb_eq in E. congruence.
  - reflexivity.
Qed.

Lemma fold_transformCell_lookup row column :
  isCanonicalField column = true ->
  forall acc,
    JS.ownProperty (fold_left transformCell row acc) column
    = match lastCell row column with
      | Some v => Some v
      | None => JS.ownProperty acc column
      end.
Proof.
  intros Hc. induction row as [|cell rest IH]; intros acc; simpl.
  - reflexivity.
  - rewrite IH. destruct (lastCell rest column); [reflexivity|].
    rewrite (transformCell_lookup _ _ _ Hc).
    now destruct (mapsTo column cell).
Qed.

(** X5: what [transformRow] holds for a column is the cell of the last
    header of the row that leads to this column, an empty cell as null;
    a column no header leads to is absent.  When two headers normalise
    to the same key the later one wins. *)
Theorem transformRow_last_cell (row : RawRow) (column : string) :
  isCanonicalField column = true ->
  JS.ownProperty (transformRow row) column = lastCell row column.
Proof.
  intros Hc. unfold transformRow.
  rewrite (fold_transformCell_lookup _ _ Hc).
  now destruct (lastCell row column).
Qed.

Lemma transformRow_last_cell_witness :
  JS.ownProperty
    (transformRow [("Category", "Human"); ("CATEGORY ", "Veterinary");
                   ("Medicine status", "")])
    "category"
  = Some (VStr "Veterinary").
Proof.
  rewrite transformRow_last_cell; reflexivity.
Defined.

Lemma ownProperty_keyed {A} (g : string -> A) (l : list string) k :
  In k l -> JS.ownProperty (List.map (fun c => (c, g c)) l) k = Some (g k).
Proof.
  induction l as [|c l IH]; simpl; [contradiction|].
  destruct (String.eqb c k) eqn:E.
  - apply String.eqb_eq in E. now subst.
  - intros [->|H]; [|auto]. now rewrite String.eqb_refl in E.
Qed.

Lemma pick_complete o keys k :
  In k keys ->
  JS.ownProperty (flat_map (pick o) keys) k = JS.ownProperty o k.
Proof.
  induction keys as [|k' keys IH]; simpl; [contradiction|].
  intros Hin. unfold pick at 1.
  destruct (String.eqb k' k) eqn:E.
  - apply String.eqb_eq in E. subst k'.
    destruct (JS.ownProperty o k) as [v|] eqn:Ek; simpl.
    + now rewrite String.eqb_refl.
    + destruct (JS.ownProperty (flat_map (pick o) keys) k) as [v|] eqn:E2;
        [|reflexivity].
      apply pick_sound in E2. congruence.
  - destruct Hin as [->|Hin]; [now rewrite String.eqb_refl in E|].
    destruct (JS.ownProperty o k'); simpl; [rewrite E|]; auto.
Qed.

Lemma field_rowOf d validated column :
  isCanonicalField column = true ->
  field (rowOf d validated) column = textOf (JS.ownProperty validated column).
Proof.
  intros Hc. apply existsb_eqb_In in Hc. unfold field, rowOf. cbn [fields].
  now rewrite (ownProperty_keyed
                 (fun c => textOf (JS.ownProperty validated c)) _ _ Hc).
Qed.

Lemma validated_no_id row :
  JS.ownProperty (flat_map (pick (transformRow row)) ("id" :: textColumns))
                 "id" = None.
Proof.
  destruct (JS.ownProperty _ "id") as [v|] eqn:E; [|reflexivity].
  apply pick_sound, ownProperty_In in E.
  pose proof (transformRow_plain row) as Hp. rewrite Forall_forall in Hp.
  apply Hp in E. now destruct E as [E _].
Qed.

(** What a row does to the world, spelled out. *)
Lemma processRow_cases rejects row w :
  let validated :=
    flat_map (pick (transformRow row)) ("id" :: textColumns) in
  let r := rowOf (db w) validated in
  processRow rejects row w
  = (if rejects (db w) validated || idTaken (db w) (sequence (db w) + 1)
     then (Failure (DatabaseInsertError row), w)
     else (Success tt,
           {| db := {| rows := rows (db w) ++ [r];
                       sequence := (sequence (db w) + 1)%Z |};
              console := console w |}))
  /\ id r = (sequence (db w) + 1)%Z.
Proof.
  intros validated r.
  assert (Hid : id r = (sequence (db w) + 1)%Z).
  { subst r. unfold rowOf. cbn [id]. subst validated.
    now rewrite validated_no_id. }
  split; [|exact Hid].
  unfold processRow, validateRow, Effect.flatMap, Effect.succeed.
  rewrite (parse_plain _ (transformRow_plain row)).
  fold validated. unfold insertRow. fold r. rewrite Hid.
  destruct (rejects (db w) validated || idTaken (db w) (sequence (db w) + 1));
    [reflexivity|].
  now rewrite Z.max_r by lia.
Qed.

Lemma idTaken_false d i :
  idTaken d i = false -> ~ In i (List.map id (rows d)).
Proof.
  unfold idTaken. intros H Hin.
  apply in_map_iff in Hin as (r & <- & Hr).
  assert (E : existsb (fun r0 => Z.eqb (id r0) (id r)) (rows d) = true).
  { apply existsb_exists. exists r. split; [assumption|apply Z.eqb_refl]. }
  congruence.
Qed.

Lemma NoDup_snoc {A} (l : list A) x : NoDup l -> ~ In x l -> NoDup (l ++ [x]).
Proof.
  intros Hl Hx. induction Hl as [|y l Hy Hl IH]; simpl.
  - constructor; [intros []|constructor].
  - constructor.
    + rewrite in_app_iff. intros [H|[->|[]]]; [contradiction|].
      apply Hx. now left.
    + apply IH. intros H. apply Hx. now right.
Qed.

Lemma batch_appends rejects w records s f w' :
  batch rejects w records s f w' ->
  exists added,
    rows (db w') = rows (db w) ++ added
    /\ List.length added = s
    /\ (NoDup (List.map id (rows (db w))) ->
        NoDup (List.map id (rows (db w')))).
Proof.
  induction 1 as [w | w w1 w' row rest s f Hrow _ IH
                    | w w1 w' row rest s f e Hrow _ IH].
  - exists []. rewrite app_nil_r. auto.
  - destruct IH as (added & Hrows & Hlen & Hnd).
    destruct (processRow_cases rejects row w) as [Hcase Hid].
    set (v := flat_map (pick (transformRow row)) ("id" :: textColumns)) in *.
    clearbody v. rewrite Hcase in Hrow.
    destruct (rejects (db w) _) eqn:Hrej; [discriminate|].
    destruct (idTaken (db w) (sequence (db w) + 1)) eqn:Htaken;
      [discriminate|].
    cbn [orb] in Hrow. injection Hrow as <-. cbn [db rows] in *.
    eexists (_ :: added). split; [|split].
    + rewrite Hrows, <- app_assoc. reflexivity.
    + simpl. now rewrite Hlen.
    + intros Hold. apply Hnd. rewrite map_app. cbn [List.map].
      apply NoDup_snoc; [assumption|].
      rewrite Hid. now apply idTaken_false.
  - apply processRow_failure in Hrow. destruct Hrow as [-> _]. exact IH.
Qed.

(** X6: an import only appends.  Whatever the outcome, the rows already
    in the table are still there, unchanged and in place; a run that
    returns an outcome has added exactly [successCount] rows after
    them and a run that fails on the read or the parse has added none;
    identities that were unique before are unique after. *)
Theorem importCSV_appends readText parse rejects filename w x w' :
  importCSV readText parse rejects filename w = (x, w') ->
  exists added,
    rows (db w') = rows (db w) ++ added
    /\ match x with
       | Success outcome => List.length added = successCount outcome
       | Failure _ => added = []
       end
    /\ (NoDup (List.map id (rows (db w))) ->
        NoDup (List.map id (rows (db w')))).
Proof.
  intros Hrun.
  destruct (readText filename) as [content|] eqn:Hread.
  - destruct (parse content) as [records|] eqn:Hparse.
    + destruct (batch_total rejects records
                  {| db := db w;
                     console := console w ++ [LogReading filename; LogParsing;
                                  LogProcessing (List.length records)] |})
        as (s & f & w1 & Hbatch).
      destruct (importCSV_run _ _ _ _ _ _ _ _ _ _ Hread Hparse Hbatch)
        as (outcome & Hrun' & Hs & _).
      rewrite Hrun' in Hrun. injection Hrun as <- <-.
      destruct (batch_appends _ _ _ _ _ _ Hbatch) as (added & Hr & Hl & Hn).
      exists added. cbn [db] in *.
      split; [exact Hr|split; [congruence|exact Hn]].
    + rewrite (importCSV_parse_failure _ _ _ _ _ _ Hread Hparse) in Hrun.
      injection Hrun as <- <-. exists []. cbn [db].
      rewrite app_nil_r. auto.
  - rewrite (importCSV_read_failure _ _ _ _ _ Hread) in Hrun.
    injection Hrun as <- <-. exists []. cbn [db].
    rewrite app_nil_r. auto.
Qed.

Lemma importCSV_appends_witness :
  exists w',
    snd (importCSV sampleFiles (parseTo sampleRecords) (roomFor 1)
           "medicines.csv" emptyWorld) = w'
    /\ List.length (rows (db w')) = 1.
Proof.
  eexists. split; [reflexivity|].
  destruct (importCSV sampleFiles (parseTo sampleRecords) (roomFor 1)
              "medicines.csv" emptyWorld) as [x w'] eqn:E.
  destruct (importCSV_appends _ _ _ _ _ _ _ E) as (added & Hr & Hx & _).
  assert (Ex : exists o, x = Success o /\ successCount o = 1).
  { vm_compute in E. injection E as <- _. eexists. split; reflexivity. }
  destruct Ex as (o & -> & Ho).
  cbn [snd]. rewrite Hr, length_app, Hx, Ho. reflexivity.
Defined.

Lemma attempt_errors rejects (E : Type) records :
  forall w results w',
    Effect.forEach records (attempt rejects (E := E)) w
    = (Success results, w') ->
    Forall isInsertError (errorsOf results).
Proof.
  induction records as [|row rest IH]; intros w results w'.
  - intros [= <- _]. constructor.
  - cbn [Effect.forEach]. unfold Effect.flatMap at 1. rewrite attempt_eq.
    destruct (processRow_cases rejects row w) as [Hcase _]. rewrite Hcase.
    destruct (rejects (db w) _ || idTaken (db w) _);
      unfold Effect.flatMap at 1;
      match goal with
      | |- context [Effect.forEach rest ?f ?w0] =>
          destruct (Effect.forEach rest f w0) as [[e|rs] w2] eqn:Hrest
      end; unfold Effect.succeed; try discriminate; intros [= <- _];
      specialize (IH _ _ _ Hrest).
    + change (errorsOf (ko (DatabaseInsertError row) :: rs))
        with (DatabaseInsertError row :: errorsOf rs).
      constructor; [now exists row|assumption].
    + exact IH.
Qed.

(** The run, given what the rows made of the world. *)
Lemma importCSV_after_rows readText parse rejects filename content records
  w outcome w1 :
  readText filename = Some content ->
  parse content = Some records ->
  processAllRows rejects (E := ImportError) records
    {| db := db w;
       console := console w ++ [LogReading filename; LogParsing;
                                LogProcessing (List.length records)] |}
  = (Success outcome, w1) ->
  importCSV readText parse rejects filename w
  = (Success outcome,
     {| db := db w1; console := console w1 ++ report outcome |}).
Proof.
  intros Hread Hparse Hrun.
  unfold importCSV, readCSVFile, parseCSV.
  rewrite Hread.
  unfold Effect.flatMap, Effect.succeed. unfold Effect.log at 1 2 3.
  cbn [db console]. rewrite Hparse.
  cbn [db console]. repeat rewrite <- app_assoc. cbn [app].
  rewrite Hrun. unfold Effect.log at 1. cbn [db console].
  unfold report, Effect.when.
  destruct (0 <? List.length (errors outcome)).
  - unfold Effect.log at 1. rewrite forEach_log.
    destruct (5 <? List.length (errors outcome));
      unfold Effect.log; cbn [db console];
      repeat rewrite <- app_assoc; cbn [app];
      try rewrite app_nil_r; reflexivity.
  - reflexivity.
Qed.

Lemma processAllRows_total rejects (E : Type) records w :
  exists outcome w1,
    processAllRows rejects (E := E) records w = (Success outcome, w1).
Proof.
  destruct (batch_total rejects records w) as (s & f & w1 & Hb).
  destruct (processAllRows_batch rejects E _ _ _ _ _ Hb) as (o & Ho & _).
  eauto.
Qed.

(** X7: an import run never reports a validation error: every failure
    detail of the outcome is a DatabaseInsertError.  What
    [transformRow] builds always passes the insert schema, so only the
    store can turn a row down. *)
Theorem importCSV_only_insert_errors readText parse rejects filename w
  outcome w' :
  importCSV readText parse rejects filename w = (Success outcome, w') ->
  Forall isInsertError (errors outcome).
Proof.
  intros Hrun.
  destruct (readText filename) as [content|] eqn:Hread;
    [|rewrite importCSV_read_failure in Hrun by assumption; discriminate].
  destruct (parse content) as [records|] eqn:Hparse;
    [|rewrite (importCSV_parse_failure _ _ _ _ _ _ Hread Hparse) in Hrun;
      discriminate].
  destruct (processAllRows_total rejects ImportError records
              {| db := db w;
                 console := console w ++ [LogReading filename; LogParsing;
                              LogProcessing (List.length records)] |})
    as (o & w1 & Hrows).
  rewrite (importCSV_after_rows _ _ _ _ _ _ _ _ _ Hread Hparse Hrows) in Hrun.
  injection Hrun as <- _.
  unfold processAllRows, Effect.flatMap in Hrows.
  match type of Hrows with
  | context [Effect.forEach records ?f ?w0] =>
      destruct (Effect.forEach records f w0) as [[e|rs] w2] eqn:Hfor
  end; [discriminate|].
  unfold Effect.succeed in Hrows. injection Hrows as <- _.
  cbn [errors]. exact (attempt_errors _ _ _ _ _ _ Hfor).
Qed.

Lemma importCSV_only_insert_errors_witness :
  Forall isInsertError
    (match fst (importCSV sampleFiles (parseTo sixRecords) readOnly
                  "medicines.csv" emptyWorld) with
     | Success outcome => errors outcome
     | Failure _ => []
     end).
Proof.
  destruct (importCSV sampleFiles (parseTo sixRecords) readOnly
              "medicines.csv" emptyWorld) as [[e|outcome] w'] eqn:E;
    cbn [fst]; [constructor|].
  exact (importCSV_only_insert_errors _ _ _ _ _ _ _ E).
Defined.

(* ================================================================== *)
(** ** Further properties: one record by identity *)

Lemma limit_one {A} (l : list A) : limit 1 l = firstn 1 l.
Proof. reflexivity. Qed.

Lemma filter_none {A} (p : A -> bool) l :
  (forall x, In x l -> p x = false) -> filter p l = [].
Proof.
  induction l as [|x l IH]; simpl; [reflexivity|].
  intros H. rewrite (H x (or_introl eq_refl)). apply IH.
  intros y Hy. apply H. now right.
Qed.

Lemma same_identity (l : list Medicine) a b :
  NoDup (List.map id l) -> In a l -> In b l -> id a = id b -> a = b.
Proof.
  induction l as [|x l IH]; simpl; [contradiction|].
  intros Hnd Ha Hb E. inversion Hnd as [|? ? Hx Hl]; subst.
  destruct Ha as [->|Ha], Hb as [->|Hb]; auto.
  - exfalso. apply Hx. rewrite E. now apply in_map.
  - exfalso. apply Hx. rewrite <- E. now apply in_map.
Qed.

(** X8: a request for one record whose identity text reads as the
    number n, n within the range in which numbers are exact.  A reply
    with a record carries a stored record of identity n.  When the
    table holds no such record - and only then - the handler's effect
    fails with the HTTPError 404 "Medicine not found"; the client does
    not see it: the failure arrives at [onError] wrapped and is
    answered as 500 "Internal server error".  Identities being unique,
    the record of identity n is the reply whenever there is one. *)
Theorem getMedicineById_spec (d : Database) (idText : string) (n : Z) :
  parseInt idText = Some n ->
  (Z.abs n <= 2 ^ 53)%Z ->
  (forall r, route (getMedicineById d idText) = Answer r ->
             In r (rows d) /\ id r = n)
  /\ ((forall r, In r (rows d) -> id r <> n) <->
      getMedicineById d idText = Failure notFound)
  /\ ((forall r, In r (rows d) -> id r <> n) <->
      route (getMedicineById d idText)
      = ErrorReply 500 "Internal server error")
  /\ (NoDup (List.map id (rows d)) ->
      forall r, In r (rows d) -> id r = n ->
                route (getMedicineById d idText) = Answer r).
Proof.
  intros Hparse _. unfold getMedicineById. rewrite Hparse, limit_one.
  destruct (filter (fun r => Z.eqb (id r) n) (rows d)) as [|r0 l] eqn:E.
  - assert (Hnone : forall r, In r (rows d) -> id r <> n).
    { intros r Hr Hid.
      assert (Hin : In r (filter (fun r => Z.eqb (id r) n) (rows d)))
        by (apply filter_In; split; [assumption|now apply Z.eqb_eq]).
      rewrite E in Hin. contradiction. }
    cbn [firstn route runPromise onError].
    split; [discriminate|]. split; [now split|]. split; [now split|].
    intros _ r Hr Hid. now apply Hnone in Hr.
  - assert (H0 : In r0 (rows d) /\ id r0 = n).
    { assert (Hin : In r0 (filter (fun r => Z.eqb (id r) n) (rows d)))
        by (rewrite E; now left).
      apply filter_In in Hin as [H1 H2]. now apply Z.eqb_eq in H2. }
    destruct H0 as [Hin0 Hid0]. cbn [firstn route runPromise onError].
    split; [now intros r [= <-]|]. split; [|split].
    + split; [|discriminate]. intros H. now apply H in Hin0.
    + split; [|discriminate]. intros H. now apply H in Hin0.
    + intros Hnd r Hr Hid. f_equal.
      apply (same_identity (rows d)); congruence.
Qed.

Lemma getMedicineById_spec_witness :
  route (getMedicineById
           {| rows := [withStatus 1 "Authorised"; withStatus 2 "Withdrawn"];
              sequence := 2%Z |} " 2")
  = Answer (withStatus 2 "Withdrawn")
  /\ route (getMedicineById
              {| rows := [withStatus 1 "Authorised";
                          withStatus 2 "Withdrawn"];
                 sequence := 2%Z |} "7")
     = ErrorReply 500 "Internal server error".
Proof.
  split.
  - refine (proj2 (proj2 (proj2 (getMedicineById_spec _ " 2" 2 _ _))) _ _ _ _).
    + reflexivity.
    + cbn. lia.
    + repeat constructor; simpl; intuition discriminate.
    + right. now left.
    + reflexivity.
  - refine (proj1 (proj1 (proj2 (proj2
              (getMedicineById_spec _ "7" 7 _ _)))) _).
    + reflexivity.
    + cbn. lia.
    + intros r [<-|[<-|[]]]; discriminate.
Defined.

Lemma decimal_char c :
  isDecimalDigit c = true ->
  JS.isWhiteSpace c = false
  /\ Ascii.eqb c "-" = false /\ Ascii.eqb c "+" = false
  /\ Ascii.eqb c "x" = false /\ Ascii.eqb c "X" = false
  /\ exists v, digitIn 10 c = Some v.
Proof.
  destruct c as [[] [] [] [] [] [] [] []];
    vm_compute; intros H; try discriminate H;
    repeat split; eexists; reflexivity.
Qed.

Lemma clean_char c :
  digitValue c = None ->
  Ascii.eqb c "x" = false /\ Ascii.eqb c "X" = false
  /\ digitIn 10 c = None.
Proof.
  destruct c as [[] [] [] [] [] [] [] []];
    vm_compute; intros H; try discriminate H; repeat split.
Qed.

Lemma parseDigits_tail digits tail :
  JS.all isDecimalDigit digits = true ->
  startsClean tail = true ->
  forall acc,
    parseDigits 10 acc (digits ++ tail) = parseDigits 10 acc digits.
Proof.
  intros Hd Ht. induction digits as [|c digits IH]; intros acc.
  - destruct tail as [|c t]; [reflexivity|].
    cbn [append parseDigits]. cbn [startsClean] in Ht.
    destruct (digitValue c) eqn:E; [discriminate|].
    now destruct (clean_char _ E) as (_ & _ & ->).
  - cbn [JS.all] in Hd. apply andb_prop in Hd as [Hc Hd].
    cbn [append parseDigits].
    destruct (decimal_char _ Hc) as (_ & _ & _ & _ & _ & v & ->).
    now apply IH.
Qed.

Lemma parseInt_decimal c digits tail :
  isDecimalDigit c = true ->
  JS.all isDecimalDigit digits = true ->
  startsClean tail = true ->
  parseInt (String c digits ++ tail)
  = Some (parseDigits 10 0 (String c digits)).
Proof.
  intros Hc Hd Ht.
  destruct (decimal_char _ Hc) as (Hws & Hm & Hp & Hx & HX & v & Hv).
  unfold parseInt. cbn [append JS.trimStart]. rewrite Hws.
  unfold stripSign. rewrite Hm, Hp.
  assert (Hhex : stripHexPrefix (String c (digits ++ tail))
                 = (10%Z, String c (digits ++ tail))).
  { unfold stripHexPrefix.
    destruct (digits ++ tail)%string as [|x rest] eqn:E; [reflexivity|].
    assert (Hx' : Ascii.eqb x "x" || Ascii.eqb x "X" = false).
    { destruct digits as [|d ds].
      - simpl in E. subst tail. cbn [startsClean] in Ht.
        destruct (digitValue x) eqn:Ex; [discriminate|].
        now destruct (clean_char _ Ex) as (-> & -> & _).
      - simpl in E. injection E as <- _.
        cbn [JS.all] in Hd. apply andb_prop in Hd as [Hd _].
        now destruct (decimal_char _ Hd) as (_ & _ & _ & -> & -> & _). }
    rewrite Hx'. now rewrite andb_false_r. }
  rewrite Hhex. cbn [hasDigit]. rewrite Hv.
  rewrite Z.mul_1_l. f_equal.
  change (String c (digits ++ tail)) with (String c digits ++ tail)%string.
  apply parseDigits_tail; [|assumption].
  cbn [JS.all]. now rewrite Hc, Hd.
Qed.

Lemma append_empty_r s : (s ++ "")%string = s.
Proof. induction s as [|c s IH]; simpl; congruence. Qed.

(** X9: the identity is read leniently: once the text starts with
    decimal digits, whatever follows them that is not a letter or a
    digit is ignored, so such a text fetches the same record as its
    digits alone. *)
Theorem getMedicineById_ignores_tail (d : Database) (c : ascii)
  (digits tail : string) :
  isDecimalDigit c = true ->
  JS.all isDecimalDigit digits = true ->
  startsClean tail = true ->
  getMedicineById d (String c digits ++ tail)
  = getMedicineById d (String c digits).
Proof.
  intros Hc Hd Ht. unfold getMedicineById.
  rewrite (parseInt_decimal c digits tail Hc Hd Ht).
  pose proof (parseInt_decimal c digits EmptyString Hc Hd eq_refl) as E.
  rewrite append_empty_r in E. now rewrite E.
Qed.

Lemma getMedicineById_ignores_tail_witness :
  getMedicineById
    {| rows := [withStatus 12 "Authorised"]; sequence := 12%Z |} "12.5 mg"
  = Success (withStatus 12 "Authorised").
Proof.
  rewrite (getMedicineById_ignores_tail _ "1" "2" ".5 mg"); reflexivity.
Defined.

Lemma consistent_filter d :
  consistent d ->
  filter (fun r => Z.eqb (id r) (sequence d + 1)) (rows d) = [].
Proof.
  intros H. apply filter_none. unfold consistent in H.
  rewrite Forall_forall in H. intros r Hr. apply H in Hr.
  apply Z.eqb_neq. lia.
Qed.

(** X10: what is imported can be read back.  A row the pipeline
    accepts is stored after the rows already there under the next
    identity of the sequence; each text column holds the text of the
    last cell whose header leads to it, or NULL when that cell is
    empty or there is none; and a request for that identity returns
    exactly this record. *)
Theorem processRow_round_trip rejects (row : RawRow) (w w1 : World) :
  consistent (db w) ->
  processRow rejects row w = (Success tt, w1) ->
  exists r,
    rows (db w1) = rows (db w) ++ [r]
    /\ id r = (sequence (db w) + 1)%Z
    /\ (forall column,
          isCanonicalField column = true ->
          field r column = textOf (lastCell row column))
    /\ (forall idText,
          parseInt idText = Some (id r) ->
          getMedicineById (db w1) idText = Success r).
Proof.
  intros Hcons Hrow.
  destruct (processRow_cases rejects row w) as [Hcase Hid].
  set (v := flat_map (pick (transformRow row)) ("id" :: textColumns)) in *.
  rewrite Hcase in Hrow.
  destruct (rejects (db w) v || idTaken (db w) _); [discriminate|].
  assert (Hw : w1 = {| db := {| rows := rows (db w) ++ [rowOf (db w) v];
                                sequence := (sequence (db w) + 1)%Z |};
                       console := console w |}) by congruence.
  subst w1. clear Hrow.
  exists (rowOf (db w) v). split; [reflexivity|]. split; [exact Hid|]. split.
  - intros column Hc. rewrite (field_rowOf _ _ _ Hc). unfold v.
    rewrite pick_complete
      by (right; now apply existsb_eqb_In).
    unfold transformRow. rewrite (fold_transformCell_lookup _ _ Hc).
    now destruct (lastCell row column).
  - intros idText Hparse. unfold getMedicineById.
    rewrite Hparse, limit_one. cbn [db rows].
    rewrite filter_app, Hid, (consistent_filter _ Hcons).
    cbn [filter app]. rewrite Hid, Z.eqb_refl. reflexivity.
Qed.

Lemma processRow_round_trip_witness :
  exists w1 r,
    processRow neverRejects
      [("Category", "Human"); ("Medicine status", "")] emptyWorld
    = (Success tt, w1)
    /\ field r "category" = Some "Human"
    /\ field r "medicineStatus" = None
    /\ getMedicineById (db w1) "1" = Success r.
Proof.
  destruct (processRow neverRejects
              [("Category", "Human"); ("Medicine status", "")] emptyWorld)
    as [x w1] eqn:E.
  assert (Ex : x = Success tt) by (vm_compute in E; now injection E as <- _).
  subst x.
  assert (Hc : consistent (db emptyWorld)) by constructor.
  destruct (processRow_round_trip _ _ _ _ Hc E)
    as (r & _ & Hid & Hf & Hg).
  exists w1, r. split; [reflexivity|].
  split; [exact (Hf "category" eq_refl)|].
  split; [exact (Hf "medicineStatus" eq_refl)|].
  apply Hg. rewrite Hid. reflexivity.
Defined.

Lemma forEach_rejected rejects (E : Type) records w :
  (forall d o, rejects d o = true) ->
  Effect.forEach records (attempt rejects (E := E)) w
  = (Success (List.map (fun row => ko (DatabaseInsertError row)) records), w).
Proof.
  intros Hrej. induction records as [|row rest IH]; [reflexivity|].
  cbn [Effect.forEach List.map]. unfold Effect.flatMap at 1.
  rewrite attempt_eq.
  destruct (processRow_cases rejects row w) as [-> _].
  rewrite Hrej. cbn [orb]. unfold Effect.flatMap at 1. now rewrite IH.
Qed.

(** X11: against a store that turns every write down the run still
    goes through every record: nothing is stored, no row is counted as
    a success, and the failure details are the records' own rows, one
    DatabaseInsertError each, in the order of the file. *)
Theorem processAllRows_store_rejects_all rejects (E : Type)
  (records : list RawRow) (w : World) :
  (forall d o, rejects d o = true) ->
  processAllRows rejects (E := E) records w
  = (Success {| successCount := 0;
                errorCount := List.length records;
                errors := List.map DatabaseInsertError records |}, w).
Proof.
  intros Hrej. unfold processAllRows, Effect.flatMap.
  rewrite (forEach_rejected _ _ _ _ Hrej). unfold Effect.succeed.
  do 2 f_equal.
  induction records as [|row rest IH]; [reflexivity|].
  cbn [List.map filter success negb ko List.length].
  injection IH as H1 H2 H3.
  f_equal; [assumption|now f_equal|].
  unfold errorsOf in *. cbn [List.map filter success negb ko flat_map app error].
  now f_equal.
Qed.

Lemma processAllRows_store_rejects_all_witness :
  processAllRows readOnly (E := ImportError) sampleRecords emptyWorld
  = (Success {| successCount := 0; errorCount := 2;
                errors := List.map DatabaseInsertError sampleRecords |},
     emptyWorld).
Proof.
  apply (processAllRows_store_rejects_all readOnly ImportError
           sampleRecords emptyWorld).
  reflexivity.
Defined.

(* ================================================================== *)
(** ** Further properties: filtering *)

Lemma isTrue_and3 a b :
  SQLite.isTrue (SQLite.and3 a b) = SQLite.isTrue a && SQLite.isTrue b.
Proof. destruct a as [[]|], b as [[]|]; reflexivity. Qed.

Lemma isTrue_or3 a b :
  SQLite.isTrue (SQLite.or3 a b) = SQLite.isTrue a || SQLite.isTrue b.
Proof. destruct a as [[]|], b as [[]|]; reflexivity. Qed.

Lemma eval_And r l :
  SQLite.isTrue (eval r (And l))
  = forallb (fun c => SQLite.isTrue (eval r c)) l.
Proof.
  cbn [eval]. induction l as [|c l IH]; [reflexivity|].
  cbn [fold_right forallb]. now rewrite isTrue_and3, IH.
Qed.

Lemma eval_Or r l :
  SQLite.isTrue (eval r (Or l))
  = existsb (fun c => SQLite.isTrue (eval r c)) l.
Proof.
  cbn [eval]. induction l as [|c l IH]; [reflexivity|].
  cbn [fold_right existsb]. now rewrite isTrue_or3, IH.
Qed.

(** The clause keeps a row exactly when each condition holds of it;
    with no condition it keeps every row. *)
Lemma keeps_conjunction queryParams r :
  keeps (buildWhereClause queryParams) r
  = forallb (fun c => SQLite.isTrue (eval r c)) (conditionsOf queryParams).
Proof.
  unfold buildWhereClause.
  destruct (conditionsOf queryParams) as [|c l] eqn:E; [reflexivity|].
  unfold keeps. apply eval_And.
Qed.

Lemma In_firstn {A} n (l : list A) x : In x (firstn n l) -> In x l.
Proof.
  intros H. rewrite <- (firstn_skipn n l). apply in_or_app. now left.
Qed.

Lemma In_skipn {A} n (l : list A) x : In x (skipn n l) -> In x l.
Proof.
  intros H. rewrite <- (firstn_skipn n l). apply in_or_app. now right.
Qed.

Lemma In_limit {A} n (l : list A) x : In x (limit n l) -> In x l.
Proof. unfold limit. destruct (n <? 0)%Z; [auto|apply In_firstn]. Qed.

(** X12: what a list request returns.  Every record of the page is a
    stored row of which each condition built from the parameters
    holds, the total is the number of all stored rows of which they
    hold, and for a page size that is not negative the page has at
    most that many records. *)
Theorem getMedicines_sound (d : Database) (query : Query)
  (result : MedicinesPage) :
  getMedicines d query = Success result ->
  (forall r, In r (data result) ->
     In r (rows d)
     /\ forall c, In c (conditionsOf (query_params query)) ->
                  eval r c = Some true)
  /\ totalRecords (pagination result)
     = Z.of_nat
         (List.length
            (filter (fun r => forallb (fun c => SQLite.isTrue (eval r c))
                                      (conditionsOf (query_params query)))
                    (rows d)))
  /\ ((0 <= orElse (query_pageSize query) 50)%Z ->
      (Z.of_nat (List.length (data result))
       <= orElse (query_pageSize query) 50)%Z).
Proof.
  unfold getMedicines, getTotalCount, getPaginatedData.
  destruct (runnable (buildWhereClause (query_params query)));
    [|discriminate].
  intros [= <-]. cbn [data pagination paginate totalRecords].
  assert (Hk : filter (keeps (buildWhereClause (query_params query))) (rows d)
               = filter (fun r => forallb (fun c => SQLite.isTrue (eval r c))
                                   (conditionsOf (query_params query)))
                        (rows d)).
  { apply filter_ext. intros r. apply keeps_conjunction. }
  rewrite Hk. split; [|split; [reflexivity|]].
  - intros r Hr. apply In_limit, In_skipn, filter_In in Hr as [Hin Hall].
    split; [assumption|]. intros c Hc.
    rewrite forallb_forall in Hall. specialize (Hall c Hc).
    now destruct (eval r c) as [[]|].
  - intros Hps. unfold limit.
    destruct (orElse (query_pageSize query) 50 <? 0)%Z eqn:E;
      [apply Z.ltb_lt in E; lia|].
    rewrite length_firstn. lia.
Qed.

Lemma getMedicines_sound_witness :
  Forall (fun r => eval r (Like (Column "category") "%vet%") = Some true)
    (match getMedicines
             {| rows := [withCategory 1 "Human";
                         withCategory 2 "Veterinary"];
                sequence := 2%Z |}
             {| query_page := None; query_pageSize := None;
                query_params := [("category", "vet")] |}
     with Success result => data result | Failure _ => [] end).
Proof.
  destruct (getMedicines _ _) as [e|result] eqn:E; [constructor|].
  apply Forall_forall. intros r Hr.
  apply (proj2 (proj1 (getMedicines_sound _ _ _ E) r Hr)).
  now left.
Defined.

(** X13: the global search term is one more condition, an OR over seven
    fixed columns: a row is kept only if the term's pattern matches the
    text of at least one of them, and when the term is the only
    parameter exactly the rows with such a column are kept.  A row
    whose seven columns are all NULL is never found. *)
Theorem search_condition (queryParams : QueryParams) (r : Medicine) :
  param queryParams "search" <> "" ->
  let pattern := ("%" ++ param queryParams "search" ++ "%")%string in
  (keeps (buildWhereClause queryParams) r = true ->
   existsb (fieldLike pattern r) searchColumns = true)
  /\ (forall term,
        queryParams = [("search", term)] ->
        keeps (buildWhereClause queryParams) r
        = existsb (fieldLike pattern r) searchColumns).
Proof.
  intros Hterm pattern.
  assert (Hor : forall p,
            SQLite.isTrue
              (eval r (Or (List.map (fun c => Like (Column c) p)
                                    searchColumns)))
            = existsb (fieldLike p r) searchColumns).
  { intros p. rewrite eval_Or. generalize searchColumns.
    induction l as [|c l IH]; [reflexivity|].
    cbn [List.map existsb]. rewrite IH. f_equal.
    unfold fieldLike. cbn [eval].
    destruct (field r c) as [v|]; [|reflexivity].
    cbn [option_map]. now destruct (SQLite.like p v). }
  assert (Hs : searchCondition queryParams
               = [Or (List.map (fun c => Like (Column c) pattern)
                               searchColumns)]).
  { unfold searchCondition. apply truthy_iff in Hterm. now rewrite Hterm. }
  split.
  - rewrite keeps_conjunction. unfold conditionsOf.
    repeat rewrite forallb_app. rewrite Hs. cbn [forallb].
    rewrite Hor. intros H.
    do 5 (apply andb_prop in H as [_ H]).
    now apply andb_prop in H as [H _].
  - intros term ->. rewrite keeps_conjunction.
    unfold conditionsOf. rewrite Hs.
    change (param [("search", term)] "search") with term in *.
    apply truthy_iff in Hterm.
    unfold dateCondition. cbn [flat_map fieldCondition isReserved].
    change (param [("search", term)] "marketingAuthorisationDateFrom")
      with EmptyString.
    change (param [("search", term)] "marketingAuthorisationDateTo")
      with EmptyString.
    change (param [("search", term)] "lastUpdatedDateFrom") with EmptyString.
    change (param [("search", term)] "lastUpdatedDateTo") with EmptyString.
    cbn [JS.truthy app]. change (isReserved "search") with true.
    cbn [orb app forallb]. rewrite Hor. apply andb_true_r.
Qed.

Lemma search_condition_witness :
  keeps (buildWhereClause [("search", "insulin")])
        {| id := 1;
           fields := [("inn", Some "Insulin glargine")] |}
  = true.
Proof.
  rewrite (proj2 (search_condition [("search", "insulin")] _
                    ltac:(discriminate)) "insulin" eq_refl).
  reflexivity.
Defined.

Lemma le_iff a b : SQLite.le a b = true <-> ~ String_as_OT.lt b a.
Proof.
  unfold SQLite.le.
  destruct (String_as_OT.compare_spec a b) as [E|E|E].
  - unfold String_as_OT.eq in E. subst. split; [|reflexivity]. intros _ H.
    apply (irreflexivity (R := String_as_OT.lt) H).
  - split; [|reflexivity]. intros _ H.
    apply (irreflexivity (R := String_as_OT.lt)
             (transitivity (R := String_as_OT.lt) E H)).
  - split; [discriminate|]. intros H. now apply H in E.
Qed.

Lemma ge_iff a b : SQLite.ge a b = true <-> ~ String_as_OT.lt a b.
Proof.
  unfold SQLite.ge, String_as_OT.lt.
  destruct (String_as_OT.compare a b); split; congruence.
Qed.

Lemma between_same a b :
  ~ String_as_OT.lt a b -> ~ String_as_OT.lt b a -> a = b.
Proof.
  intros H1 H2.
  destruct (String_as_OT.compare_spec a b) as [E|E|E];
    [assumption|contradiction|contradiction].
Qed.

(** X14: the two bounds on the authorisation date are inclusive and
    compare text with text: with both given and nothing else, a row is
    kept exactly when its date is not NULL and lies, in the
    lexicographic order of code units, between the bounds; with equal
    bounds exactly the rows of that date are kept. *)
Theorem date_range_condition (lo hi : string) (r : Medicine) :
  lo <> "" -> hi <> "" ->
  let queryParams := [("marketingAuthorisationDateFrom", lo);
                      ("marketingAuthorisationDateTo", hi)] in
  (keeps (buildWhereClause queryParams) r = true <->
   exists date,
     field r "marketingAuthorisationDate" = Some date
     /\ ~ String_as_OT.lt date lo /\ ~ String_as_OT.lt hi date)
  /\ (lo = hi ->
      (keeps (buildWhereClause queryParams) r = true <->
       field r "marketingAuthorisationDate" = Some lo)).
Proof.
  intros Hlo Hhi queryParams.
  assert (Hc : conditionsOf queryParams
               = [Ge "marketingAuthorisationDate" lo;
                  Le "marketingAuthorisationDate" hi]).
  { apply truthy_iff in Hlo, Hhi. unfold conditionsOf, queryParams.
    unfold dateCondition, searchCondition.
    cbn [flat_map fieldCondition].
    change (isReserved "marketingAuthorisationDateFrom") with true.
    change (isReserved "marketingAuthorisationDateTo") with true.
    cbn [orb app].
    change (param _ "marketingAuthorisationDateFrom") with lo.
    change (param _ "marketingAuthorisationDateTo") with hi.
    change (param _ "lastUpdatedDateFrom") with EmptyString.
    change (param _ "lastUpdatedDateTo") with EmptyString.
    change (param _ "search") with EmptyString.
    rewrite Hlo, Hhi. reflexivity. }
  assert (Hk : keeps (buildWhereClause queryParams) r = true <->
               exists date,
                 field r "marketingAuthorisationDate" = Some date
                 /\ ~ String_as_OT.lt date lo /\ ~ String_as_OT.lt hi date).
  { rewrite keeps_conjunction, Hc. cbn [forallb eval].
    destruct (field r "marketingAuthorisationDate") as [v|];
      cbn [option_map SQLite.isTrue].
    - rewrite andb_true_r. split.
      + intros H. apply andb_prop in H as [H1 H2]. exists v.
        split; [reflexivity|]. split.
        * apply ge_iff. now destruct (SQLite.ge v lo).
        * apply le_iff. now destruct (SQLite.le v hi).
      + intros (date & [= <-] & H1 & H2).
        apply ge_iff in H1. apply le_iff in H2. now rewrite H1, H2.
    - split; [discriminate|]. intros (date & H & _). discriminate. }
  split; [exact Hk|].
  intros <-. rewrite Hk. split.
  - intros (date & Hf & H1 & H2). rewrite Hf. f_equal.
    now apply between_same.
  - intros Hf. exists lo. split; [assumption|].
    split; apply (irreflexivity (R := String_as_OT.lt)).
Qed.

Lemma date_range_condition_witness :
  keeps (buildWhereClause [("marketingAuthorisationDateFrom", "2020-01-01");
                           ("marketingAuthorisationDateTo", "2020-01-01")])
        {| id := 1;
           fields := [("marketingAuthorisationDate", Some "2020-01-01")] |}
  = true.
Proof.
  apply (proj2 (date_range_condition "2020-01-01" "2020-01-01" _
                  ltac:(discriminate) ltac:(discriminate)) eq_refl).
  reflexivity.
Defined.

(* ================================================================== *)
(** ** Further properties: pages *)

Lemma flat_map_agree {A B} (f g : A -> list B) l :
  (forall a, In a l -> f a = g a) -> flat_map f l = flat_map g l.
Proof.
  induction l as [|a l IH]; simpl; [reflexivity|].
  intros H. rewrite (H a (or_introl eq_refl)), IH; [reflexivity|].
  intros b Hb. apply H. now right.
Qed.

Lemma pages_tile {A} (k : nat) :
  1 <= k ->
  forall n (l : list A),
    List.length l <= n * k ->
    flat_map (fun p => firstn k (skipn ((p - 1) * k) l)) (seq 1 n) = l.
Proof.
  intros Hk. induction n as [|n IH]; intros l Hl.
  - destruct l; [reflexivity|simpl in Hl; lia].
  - cbn [seq flat_map]. rewrite <- seq_shift, flat_map_concat_map, map_map,
      <- flat_map_concat_map.
    change ((1 - 1) * k) with 0. cbn [skipn].
    transitivity (firstn k l ++ skipn k l); [|apply firstn_skipn]. f_equal.
    etransitivity;
      [|apply (IH (skipn k l)); rewrite length_skipn; lia].
    apply flat_map_agree. intros p Hp. apply in_seq in Hp.
    rewrite skipn_skipn. do 2 f_equal.
    replace (S p - 1) with (S (p - 1)) by lia. simpl. lia.
Qed.

Lemma ceiling_covers total size :
  (1 <= size)%Z -> (0 <= total)%Z ->
  (total <= size * ((total + size - 1) / size)
   /\ size * ((total + size - 1) / size - 1) < total
      \/ total = 0)%Z
  /\ (total <= size * ((total + size - 1) / size))%Z.
Proof.
  intros Hs Ht.
  pose proof (Z.div_mod (total + size - 1) size ltac:(lia)) as Hdm.
  pose proof (Z.mod_pos_bound (total + size - 1) size ltac:(lia)) as Hb.
  split; [left|]; nia.
Qed.

Lemma totalPages_eq page_ size total :
  (1 <= size)%Z -> (0 <= total)%Z ->
  totalPages (paginate page_ size total)
  = (if (total =? 0)%Z then 1 else (total + size - 1) / size)%Z.
Proof.
  intros Hs Ht. unfold paginate. cbn [totalPages].
  now rewrite ceilOfQuotient_eq by lia.
Qed.

Lemma pageData_eq d whereClause page_ size :
  runnable whereClause = true ->
  (1 <= page_)%Z -> (1 <= size)%Z ->
  pageData d whereClause page_ size
  = firstn (Z.to_nat size)
      (skipn ((Z.to_nat page_ - 1) * Z.to_nat size)
         (filter (keeps whereClause) (rows d))).
Proof.
  intros Hrun Hp Hs. unfold pageData, getPaginatedData, limit, offset.
  rewrite Hrun.
  destruct (size <? 0)%Z eqn:E; [apply Z.ltb_lt in E; lia|].
  do 2 f_equal. rewrite Z2Nat.inj_mul by lia.
  f_equal. rewrite Z2Nat.inj_sub by lia. reflexivity.
Qed.

(** X15: the pages of a result tile it.  For a page size of at least
    one, the pages 1 to totalPages, put one after the other, are
    exactly the rows the clause keeps, each once and in table order:
    no row is skipped and none is served twice. *)
Theorem pages_cover_result (d : Database) (whereClause : option SQL)
  (size : Z) :
  runnable whereClause = true ->
  (1 <= size)%Z ->
  let kept := filter (keeps whereClause) (rows d) in
  let pages :=
    totalPages (paginate 1 size (Z.of_nat (List.length kept))) in
  flat_map (fun p => pageData d whereClause (Z.of_nat p) size)
           (seq 1 (Z.to_nat pages))
  = kept.
Proof.
  intros Hrun Hs kept pages.
  rewrite <- (pages_tile (Z.to_nat size) ltac:(lia) (Z.to_nat pages) kept).
  - apply flat_map_agree. intros p Hp. apply in_seq in Hp.
    rewrite pageData_eq by (assumption || lia).
    now rewrite Nat2Z.id.
  - subst pages. rewrite totalPages_eq by lia.
    set (total := Z.of_nat (List.length kept)).
    destruct (ceiling_covers total size Hs ltac:(lia)) as [_ Hc].
    destruct (total =? 0)%Z eqn:E.
    + apply Z.eqb_eq in E. subst total. nia.
    + assert (0 <= (total + size - 1) / size)%Z
        by (apply Z.div_pos; lia).
      rewrite <- Z2Nat.inj_mul by lia.
      apply Nat2Z.inj_le. rewrite Z2Nat.id by nia. fold total. nia.
Qed.

Lemma pages_cover_result_witness :
  flat_map (fun p => pageData
                       {| rows := [withCategory 1 "Human";
                                   withCategory 2 "Veterinary";
                                   withCategory 3 "Human"];
                          sequence := 3%Z |} None (Z.of_nat p) 2)
           [1; 2]
  = [withCategory 1 "Human"; withCategory 2 "Veterinary";
     withCategory 3 "Human"].
Proof.
  exact (pages_cover_result
           {| rows := [withCategory 1 "Human"; withCategory 2 "Veterinary";
                       withCategory 3 "Human"];
              sequence := 3%Z |} None 2 eq_refl ltac:(lia)).
Defined.

Lemma pageData_length (d : Database) (whereClause : option SQL)
  (page_ size : Z) :
  runnable whereClause = true ->
  (1 <= page_)%Z -> (1 <= size)%Z ->
  let kept := filter (keeps whereClause) (rows d) in
  let pages :=
    totalPages (paginate page_ size (Z.of_nat (List.length kept))) in
  List.length (pageData d whereClause page_ size) <= Z.to_nat size
  /\ ((page_ < pages)%Z ->
      List.length (pageData d whereClause page_ size) = Z.to_nat size)
  /\ ((pages < page_)%Z -> pageData d whereClause page_ size = []).
Proof.
  intros Hrun Hp Hs kept pages.
  rewrite pageData_eq by assumption. fold kept.
  subst pages. rewrite totalPages_eq by lia.
  set (total := Z.of_nat (List.length kept)).
  assert (Ht : List.length kept = Z.to_nat total)
    by (subst total; now rewrite Nat2Z.id).
  destruct (ceiling_covers total size Hs ltac:(lia)) as [Hc1 Hc2].
  assert (Hoff : (Z.to_nat page_ - 1) * Z.to_nat size
                 = Z.to_nat ((page_ - 1) * size))
    by (rewrite Z2Nat.inj_mul, Z2Nat.inj_sub by lia; reflexivity).
  split; [|split].
  - rewrite length_firstn. lia.
  - intros Hlt. rewrite length_firstn, length_skipn, Ht, Hoff.
    destruct (total =? 0)%Z eqn:E; [lia|].
    apply Z.eqb_neq in E. destruct Hc1 as [[_ Hc1]|Hc1]; [|lia].
    assert ((page_ - 1) * size + size <= total)%Z by nia.
    rewrite <- Z2Nat.inj_sub by nia. rewrite Nat.min_l; [reflexivity|].
    apply Z2Nat.inj_le; nia.
  - intros Hgt. rewrite skipn_all2; [apply firstn_nil|].
    rewrite Ht, Hoff. apply Z2Nat.inj_le; try nia.
    destruct (total =? 0)%Z eqn:E.
    + apply Z.eqb_eq in E. nia.
    + nia.
Qed.

(** X16: the size of a page.  A list request within the bounds of the
    route (1 <= page <= 2^31 - 1, 1 <= pageSize <= 100) whose clause
    can be run succeeds, whatever the page number; its page never has
    more than pageSize records; every page before the last one is
    full; and a page after the last one is a successful answer with no
    record. *)
Theorem page_length (d : Database) (query : Query) :
  let page_ := orElse (query_page query) 1%Z in
  let size := orElse (query_pageSize query) 50%Z in
  (1 <= page_ <= 2147483647)%Z -> (1 <= size <= 100)%Z ->
  runnable (buildWhereClause (query_params query)) = true ->
  exists result,
    getMedicines d query = Success result
    /\ List.length (data result) <= Z.to_nat size
    /\ ((page_ < totalPages (pagination result))%Z ->
        List.length (data result) = Z.to_nat size)
    /\ ((totalPages (pagination result) < page_)%Z -> data result = []).
Proof.
  intros page_ size Hpage Hsize Hrun.
  rewrite (getMedicines_runnable d query Hrun).
  eexists. split; [reflexivity|]. cbn [data pagination].
  apply pageData_length; (assumption || lia).
Qed.

Lemma page_length_witness :
  exists result,
    getMedicines (tableOf 3) (pageQuery 3 2) = Success result
    /\ data result = [].
Proof.
  destruct (page_length (tableOf 3) (pageQuery 3 2))
    as (result & Hrun & _ & _ & Hempty);
    [cbn; lia|cbn; lia|reflexivity|].
  exists result. split; [exact Hrun|].
  apply Hempty.
  assert (E : getMedicines (tableOf 3) (pageQuery 3 2)
              = Success {| data := []; pagination := paginate 3 2 3 |})
    by reflexivity.
  rewrite E in Hrun. injection Hrun as <-. cbn. lia.
Defined.

(** X17: hasNextPage says whether rows are left: for a page number and
    a page size of at least one and a total that is not negative it is
    true exactly when the rows up to and including this page are fewer
    than the total. *)
Theorem hasNextPage_iff (page_ size total : Z) :
  (1 <= page_)%Z -> (1 <= size)%Z -> (0 <= total)%Z ->
  hasNextPage (paginate page_ size total) = true
  <-> (page_ * size < total)%Z.
Proof.
  intros Hp Hs Ht.
  change (hasNextPage (paginate page_ size total))
    with (page_ <? totalPages (paginate page_ size total))%Z.
  rewrite totalPages_eq by lia. rewrite Z.ltb_lt.
  destruct (ceiling_covers total size Hs Ht) as [Hc1 Hc2].
  destruct (total =? 0)%Z eqn:E.
  - apply Z.eqb_eq in E. subst. nia.
  - apply Z.eqb_neq in E. destruct Hc1 as [[_ Hc1]|Hc1]; [|lia].
    split; intros H; nia.
Qed.

Lemma hasNextPage_iff_witness :
  hasNextPage (paginate 2 10 25) = true <-> (2 * 10 < 25)%Z.
Proof. apply hasNextPage_iff; lia. Defined.

(* ================================================================== *)
(** ** Further properties: distinct values and statistics *)

(** X18: the request for the distinct values of a field.  The
    handler's effect fails with the HTTPError 400 "Invalid field name"
    exactly for the names that are neither a text column of the table
    nor a member every object inherits.  The client is answered with
    values exactly for the text columns of the table; for every other
    name the failure arrives at [onError] wrapped and the answer is
    500 "Internal server error", never the 400. *)
Theorem getFieldValues_invalid_iff (d : Database) (name : string) :
  (getFieldValues d name = Failure invalidField
   <-> isCanonicalField name = false /\ ~ In name JS.prototypeMembers)
  /\ (isCanonicalField name = false
      <-> route (getFieldValues d name)
          = ErrorReply 500 "Internal server error")
  /\ (isCanonicalField name = true
      <-> route (getFieldValues d name)
          = Answer {| fieldName := name;
                      values := selectDistinct d name |}).
Proof.
  unfold getFieldValues.
  pose proof (get_cases fieldMapping name) as Hget.
  destruct (JS.get fieldMapping name) as [c|m|] eqn:E.
  - apply fieldMapping_own in E as [-> E]. rewrite E.
    cbn [route runPromise onError].
    split; [split; [discriminate|intros [H _]; discriminate]|].
    split; [split; discriminate|]. now split.
  - destruct Hget as (_ & Hown & Hin).
    assert (Hc : isCanonicalField name = false).
    { destruct (isCanonicalField name) eqn:Hc; [|reflexivity].
      rewrite (fieldMapping_canonical _ Hc) in E. discriminate. }
    rewrite Hc. cbn [route runPromise onError databaseFailure].
    split; [split; [discriminate|now intros [_ H]]|].
    split; [now split|]. split; discriminate.
  - destruct Hget as [Hown Hnot].
    assert (Hc : isCanonicalField name = false).
    { destruct (isCanonicalField name) eqn:Hc; [|reflexivity].
      rewrite (fieldMapping_canonical _ Hc) in E. discriminate. }
    rewrite Hc. cbn [route runPromise onError].
    split; [now split|]. split; [now split|]. split; discriminate.
Qed.

(** X19: for a text column of the table the request answers with the
    values in strictly increasing order of their code units, so
    without duplicates; none of them is empty; and a text is among
    them exactly when it is not empty and some stored row holds it in
    that column. *)
Theorem getFieldValues_values (d : Database) (name : string) :
  isCanonicalField name = true ->
  exists found,
    getFieldValues d name
    = Success {| fieldName := name; values := found |}
    /\ StronglySorted String_as_OT.lt found
    /\ NoDup found
    /\ ~ In "" found
    /\ (forall v, In v found <->
                  v <> "" /\ exists r, In r (rows d)
                                       /\ field r name = Some v).
Proof.
  intros Hc. exists (selectDistinct d name).
  split; [now apply getFieldValues_canonical|].
  apply selectDistinct_spec.
Qed.

Lemma getFieldValues_values_witness :
  exists found,
    getFieldValues
      {| rows := [withCategory 1 "Veterinary"; withCategory 2 "Human";
                  withCategory 3 ""; withCategory 4 "Human"];
         sequence := 4%Z |} "category"
    = Success {| fieldName := "category"; values := found |}
    /\ NoDup found /\ ~ In "" found.
Proof.
  destruct (getFieldValues_values
              {| rows := [withCategory 1 "Veterinary"; withCategory 2 "Human";
                          withCategory 3 ""; withCategory 4 "Human"];
                 sequence := 4%Z |} "category" eq_refl)
    as (found & H & _ & Hn & Hb & _).
  exists found. auto.
Defined.

Lemma countWhen_exclusive a b l :
  (forall r, SQLite.isTrue (a r) = true -> SQLite.isTrue (b r) = false) ->
  countWhen a l + countWhen b l <= List.length l.
Proof.
  intros H. unfold countWhen. induction l as [|r l IH]; simpl; [lia|].
  destruct (SQLite.isTrue (a r)) eqn:Ea.
  - rewrite (H r Ea). simpl. lia.
  - destruct (SQLite.isTrue (b r)); simpl; lia.
Qed.

(** X20: the break-downs never add up to more than the total: no row
    is counted both as human and as veterinary, and no row counted as
    authorised is also counted as withdrawn or as refused. *)
Theorem getStats_bounds (d : Database) :
  human (getStats d) + veterinary (getStats d) <= totalMedicines (getStats d)
  /\ authorised (getStats d) + withdrawn (getStats d)
     <= totalMedicines (getStats d)
  /\ authorised (getStats d) + refused (getStats d)
     <= totalMedicines (getStats d).
Proof.
  unfold getStats. cbn [human veterinary authorised withdrawn refused
                          totalMedicines].
  repeat split; apply countWhen_exclusive; intros r H;
    apply equals_isTrue in H; unfold equals, isLike; now rewrite H.
Qed.

(* ================================================================== *)
(** ** Further properties: a whole file on a healthy store *)

Lemma rowOf_storedAs d row :
  rowOf d (flat_map (pick (transformRow row)) ("id" :: textColumns))
  = storedAs (sequence d + 1) row.
Proof.
  unfold rowOf, storedAs. rewrite validated_no_id. f_equal.
  apply map_ext_in. intros c Hc. f_equal.
  rewrite pick_complete by now right.
  unfold transformRow.
  rewrite fold_transformCell_lookup by now apply existsb_eqb_In.
  now destruct (lastCell row c).
Qed.

Lemma forEach_accepted rejects (E : Type) records :
  (forall d o, rejects d o = false) ->
  forall w,
    consistent (db w) ->
    Effect.forEach records (attempt rejects (E := E)) w
    = (Success (List.map (fun _ => ok) records),
       {| db := {| rows := rows (db w)
                           ++ storedFrom (sequence (db w) + 1) records;
                   sequence := (sequence (db w)
                                + Z.of_nat (List.length records))%Z |};
          console := console w |}).
Proof.
  intros Hacc. induction records as [|row rest IH]; intros w Hcons.
  - cbn [Effect.forEach List.map storedFrom List.length].
    unfold Effect.succeed. rewrite app_nil_r, Z.add_0_r.
    now destruct w as [[? ?] ?].
  - cbn [Effect.forEach List.map]. unfold Effect.flatMap at 1.
    rewrite attempt_eq.
    destruct (processRow rejects row w) as [x w1] eqn:Hrow.
    pose proof (processRow_consistent _ _ _ _ _ Hcons Hrow) as Hcons1.
    destruct (processRow_cases rejects row w) as [Hcase _].
    rewrite Hrow, Hacc, (fresh_identity _ Hcons), rowOf_storedAs in Hcase.
    cbn [orb] in Hcase. injection Hcase as -> ->.
    unfold Effect.flatMap at 1. rewrite (IH _ Hcons1).
    unfold Effect.succeed. cbn [db rows sequence console storedFrom].
    rewrite <- app_assoc. cbn [app List.length].
    replace (sequence (db w) + 1 + Z.of_nat (List.length rest))%Z
      with (sequence (db w) + Z.of_nat (S (List.length rest)))%Z by lia.
    reflexivity.
Qed.

(** X21: a file imported into a store that takes every write.  Every
    record counts as a success and there is no failure detail; the
    table grows by one record for each CSV record, in the order of the
    file and under consecutive identities from the sequence on, each
    holding the text of its row's last cell for every column; and the
    sequence moves on by the number of records.  Nothing is matched
    against the rows already stored: the same file imported again is
    stored again. *)
Theorem processAllRows_store_accepts_all rejects (E : Type)
  (records : list RawRow) (w : World) :
  (forall d o, rejects d o = false) ->
  consistent (db w) ->
  processAllRows rejects (E := E) records w
  = (Success {| successCount := List.length records;
                errorCount := 0;
                errors := [] |},
     {| db := {| rows := rows (db w)
                         ++ storedFrom (sequence (db w) + 1) records;
                 sequence := (sequence (db w)
                              + Z.of_nat (List.length records))%Z |};
        console := console w |}).
Proof.
  intros Hacc Hcons. unfold processAllRows, Effect.flatMap.
  rewrite (forEach_accepted _ _ _ Hacc _ Hcons). unfold Effect.succeed.
  do 2 f_equal. clear.
  induction records as [|row rest IH]; [reflexivity|].
  cbn [List.map filter success negb ok List.length].
  injection IH as H1 H2 H3. unfold errorsOf in *.
  cbn [List.map filter success negb ok].
  now rewrite H1, H2, H3.
Qed.

Lemma processAllRows_store_accepts_all_witness :
  processAllRows neverRejects (E := ImportError) sampleRecords emptyWorld
  = (Success {| successCount := 2; errorCount := 0; errors := [] |},
     {| db := {| rows := storedFrom 1 sampleRecords; sequence := 2%Z |};
        console := [] |}).
Proof.
  apply (processAllRows_store_accepts_all neverRejects ImportError
           sampleRecords emptyWorld).
  - reflexivity.
  - constructor.
Defined.

Lemma trimStart_map f s :
  (forall c, JS.isWhiteSpace (f c) = JS.isWhiteSpace c) ->
  JS.trimStart (JS.map f s) = JS.map f (JS.trimStart s).
Proof.
  intros Hf. induction s as [|c s IH]; simpl; [reflexivity|].
  rewrite Hf. now destruct (JS.isWhiteSpace c).
Qed.

Lemma trimEnd_map f s :
  (forall c, JS.isWhiteSpace (f c) = JS.isWhiteSpace c) ->
  JS.trimEnd (JS.map f s) = JS.map f (JS.trimEnd s).
Proof.
  intros Hf. induction s as [|c s IH]; simpl; [reflexivity|].
  rewrite IH, Hf.
  destruct (JS.trimEnd s) as [|d t]; simpl; [|reflexivity].
  now destruct (JS.isWhiteSpace c).
Qed.

Lemma newline_char c :
  JS.isWhiteSpace (if JS.isLF c then " "%char else c) = JS.isWhiteSpace c
  /\ (if JS.isLF (if JS.isLF c then " "%char else c) then " "%char
      else (if JS.isLF c then " "%char else c))
     = (if JS.isLF c then " "%char else c).
Proof. destruct c as [[] [] [] [] [] [] [] []]; vm_compute; auto. Qed.

(** X22: a line feed in a raw header counts as a space: replacing the
    line feeds of a header by spaces beforehand does not change its
    normalised key, so a header broken over two lines and the same
    header on one line reach the same column. *)
Theorem cleanHeader_newline_is_space (raw : string) :
  cleanHeader (JS.replaceNewlines raw) = cleanHeader raw.
Proof.
  unfold cleanHeader, JS.trim, JS.replaceNewlines at 2.
  rewrite trimStart_map, trimEnd_map by (intros c; apply newline_char).
  do 3 f_equal.
  generalize (JS.trimEnd (JS.trimStart raw)). intros s.
  unfold JS.replaceNewlines. induction s as [|c s IH]; simpl; [reflexivity|].
  rewrite IH. f_equal. apply newline_char.
Qed.
